(** * ConwayClassifier: a shallow embedding of ConwayClassifier.cpp

    The development follows the translation unit top to bottom: machine
    integers, the outcome of a C++ computation (value, exception, undefined
    behaviour), the string helpers of the header parser ([split], [readPos],
    [readWidthHeight]), the bounding-box pass ([calcBoardSpecs]), the board
    store ([get1DIndex], [getCellVal], [setCellVal], [initializeGameBoard]),
    the run-length filler ([fillBoard]), the constructor, [classification]
    and [printGameBoard].

    Platform assumptions: [int] is 32 bits two's complement, [size_t] is
    64 bits, [char] is ASCII in the C locale. *)

From Stdlib Require Import ZArith String Ascii List Lia Bool.
From stdpp Require Import base list.

Local Open Scope string_scope.
Local Open Scope Z_scope.

(* ------------------------------------------------------------------ *)
(** ** Machine integers *)

Module Int.

Definition min_int : Z := - 2 ^ 31.
Definition max_int : Z := 2 ^ 31 - 1.

(** Two's complement reduction of a mathematical integer to [int].
    Signed overflow is undefined in C++; the model takes the result the
    hardware produces, and theorems that depend on exact arithmetic say
    which quantities must fit. *)
Definition wrap (z : Z) : Z := (z + 2 ^ 31) mod 2 ^ 32 - 2 ^ 31.

Definition in_range (z : Z) : Prop := min_int <= z <= max_int.
Definition in_rangeb (z : Z) : bool := (min_int <=? z) && (z <=? max_int).

Definition add (a b : Z) : Z := wrap (a + b).
Definition sub (a b : Z) : Z := wrap (a - b).
Definition mul (a b : Z) : Z := wrap (a * b).

(** [size_t] arithmetic, modulo 2^64. *)
Definition usub (a b : Z) : Z := (a - b) mod 2 ^ 64.

End Int.

(* ------------------------------------------------------------------ *)
(** ** Outcomes of a C++ computation *)

(** The two standard exceptions the translation unit can raise:
    [std::out_of_range] (from [substr] and [stoi]) and
    [std::invalid_argument] (from [stoi]). *)
Inductive exn : Set := out_of_range | invalid_argument.

(** A computation returns a value, leaves by an exception, or has undefined
    behaviour (an access outside the allocated buffer, an uninitialised
    read, a division by zero). *)
Inductive outcome (A : Type) : Type :=
| Ok (a : A)
| Throw (e : exn)
| Undefined.

Arguments Ok {A} a.
Arguments Throw {A} e.
Arguments Undefined {A}.

#[global] Instance outcome_ret : MRet outcome := fun _ a => Ok a.

#[global] Instance outcome_bind : MBind outcome := fun _ _ k m =>
  match m with
  | Ok a => k a
  | Throw e => Throw e
  | Undefined => Undefined
  end.

Definition throws {A : Type} (m : outcome A) : Prop := exists e, m = Throw e.

(* ------------------------------------------------------------------ *)
(** ** std::string operations used by the parser *)

Definition len (s : string) : Z := Z.of_nat (String.length s).

(** [str.find(delimiter)]: position of the first occurrence, [None] for
    [npos]. *)
Definition find (str delimiter : string) : option nat :=
  String.index 0 delimiter str.

(** [str.substr(pos, n)]: throws when [pos > size()], otherwise the
    characters from [pos], at most [min(n, size() - pos)] of them. *)
Definition substr (str : string) (pos n : Z) : outcome string :=
  if len str <? pos then Throw out_of_range
  else Ok (String.substring (Z.to_nat pos)
                            (Z.to_nat (Z.min n (len str - pos))) str).

(** [ConwayClassifier::split]. *)
Definition split (str delimiter : string) (firstStr : bool) : outcome string :=
  match find str delimiter with
  | Some i =>
      let index := Z.of_nat i in
      if firstStr && negb (index =? 0) then
        substr str 0 index
      else if negb (index =? Int.usub (len str) 1) then
        substr str (index + 1) (Int.usub (Int.usub (len str) index) 1)
      else Ok EmptyString
  | None => Ok EmptyString
  end.

(* ------------------------------------------------------------------ *)
(** ** Character classes, token extraction and std::stoi *)

Definition char_code (c : ascii) : Z := Z.of_N (N_of_ascii c).

Definition isdigit (c : ascii) : bool :=
  (48 <=? char_code c) && (char_code c <=? 57).

(** [isspace] in the C locale: space, and the controls 9 to 13. *)
Definition isspace (c : ascii) : bool :=
  (char_code c =? 32) || ((9 <=? char_code c) && (char_code c <=? 13)).

Fixpoint skip_ws (s : string) : string :=
  match s with
  | String c r => if isspace c then skip_ws r else s
  | EmptyString => EmptyString
  end.

Fixpoint take_word (s : string) : string * string :=
  match s with
  | String c r =>
      if isspace c then (EmptyString, s)
      else let (w, r') := take_word r in (String c w, r')
  | EmptyString => (EmptyString, EmptyString)
  end.

(** An [istringstream]: the unread characters, or [None] once an
    extraction has failed. *)
Definition sstream : Type := option string.

(** [ss >> target] for a [std::string] target holding [old]: leading white
    space is skipped and the next word is stored; when no word is left the
    stream fails and the target keeps its value. *)
Definition extract (ss : sstream) (old : string) : string * sstream :=
  match ss with
  | None => (old, None)
  | Some b =>
      match skip_ws b with
      | EmptyString => (old, None)
      | String c r => let (w, r') := take_word (String c r) in (w, Some r')
      end
  end.

Fixpoint digits_val (acc : Z) (s : string) : Z :=
  match s with
  | String c r =>
      if isdigit c then digits_val (10 * acc + (char_code c - 48)) r else acc
  | EmptyString => acc
  end.

(** [std::stoi(str)], base 10: white space, an optional sign, then decimal
    digits; what follows the digits is ignored. No digit gives
    [invalid_argument], a value that does not fit [int] gives
    [out_of_range]. *)
Definition stoi (str : string) : outcome Z :=
  let s := skip_ws str in
  let '(neg, s) :=
    match s with
    | String "-"%char r => (true, r)
    | String "+"%char r => (false, r)
    | _ => (false, s)
    end in
  match s with
  | String c _ =>
      if isdigit c then
        let v := digits_val 0 s in
        let v := if neg then - v else v in
        if Int.in_rangeb v then Ok v else Throw out_of_range
      else Throw invalid_argument
  | EmptyString => Throw invalid_argument
  end.

(** The two arguments of a [std::pair] constructor call are evaluated in
    an order the language leaves open; the order decides which exception
    leaves when both arguments throw. *)
Inductive arg_order : Set := LeftToRight | RightToLeft.

Definition make_pair {A B : Type} (o : arg_order)
    (a : outcome A) (b : outcome B) : outcome (A * B) :=
  match o with
  | LeftToRight => va ← a; vb ← b; Ok (va, vb)
  | RightToLeft => vb ← b; va ← a; Ok (va, vb)
  end.

(* ------------------------------------------------------------------ *)
(** ** Header parser *)

Definition posQualifierLen : Z := 4.

(** [ConwayClassifier::readPos]: the second word of the line (the first
    when there is only one, nothing when there is none), without its first
    four characters, split at the comma. *)
Definition readPos (o : arg_order) (firstLine : string) : outcome (Z * Z) :=
  let posStream : sstream := Some firstLine in
  let '(posStr, posStream) := extract posStream EmptyString in
  let '(posStr, posStream) := extract posStream posStr in
  posStr ← substr posStr posQualifierLen
              (Int.usub (len posStr) posQualifierLen);
  make_pair o
    (s ← split posStr "," true; stoi s)
    (s ← split posStr "," false; stoi s).

(** [ConwayClassifier::readWidthHeight]: the third and the sixth word of
    the line, each cut at its comma. *)
Definition readWidthHeight (o : arg_order) (secLine : string) : outcome (Z * Z) :=
  let lineStream : sstream := Some secLine in
  let xInfo := EmptyString in
  let yInfo := EmptyString in
  let '(xInfo, lineStream) := extract lineStream xInfo in
  let '(xInfo, lineStream) := extract lineStream xInfo in
  let '(xInfo, lineStream) := extract lineStream xInfo in
  let '(yInfo, lineStream) := extract lineStream yInfo in
  let '(yInfo, lineStream) := extract lineStream yInfo in
  let '(yInfo, lineStream) := extract lineStream yInfo in
  make_pair o
    (s ← split xInfo "," true; stoi s)
    (s ← split yInfo "," true; stoi s).

(* ------------------------------------------------------------------ *)
(** ** Input streams *)

(** An [std::ifstream] over a file: the whole text, the part not read yet
    and the two state bits the code depends on. *)
Record ifstream : Type := mkStream {
  contents : string;
  unread : string;
  eofbit : bool;
  failbit : bool
}.

(** Opening a path: a file that cannot be opened leaves the stream
    failed. *)
Definition open (file : option string) : ifstream :=
  match file with
  | Some s => mkStream s s false false
  | None => mkStream EmptyString EmptyString false true
  end.

Definition stream_good (f : ifstream) : bool := negb (eofbit f || failbit f).

Fixpoint break_line (s : string) : string * string * bool :=
  match s with
  | EmptyString => (EmptyString, EmptyString, false)
  | String c r =>
      if (c =? "010")%char then (EmptyString, r, true)
      else let '(l, r', nl) := break_line r in (String c l, r', nl)
  end.

(** [std::getline(f, line)] into a string holding [old]: a stream that is
    not good fails and leaves the string alone; otherwise the string is
    cleared and filled up to the newline, which is consumed; reading
    nothing at all sets [failbit]. *)
Definition getline (f : ifstream) (old : string) : string * ifstream :=
  if stream_good f then
    match unread f with
    | EmptyString => (EmptyString, mkStream (contents f) EmptyString true true)
    | String _ _ =>
        let '(l, r, nl) := break_line (unread f) in
        (l, mkStream (contents f) r (negb nl) false)
    end
  else (old, mkStream (contents f) (unread f) (eofbit f) true).

(** [f.seekg(0, std::ios::beg)]: clears [eofbit], then rewinds unless the
    stream has failed. *)
Definition seekg0 (f : ifstream) : ifstream :=
  if failbit f then mkStream (contents f) (unread f) false true
  else mkStream (contents f) (contents f) false false.

(* ------------------------------------------------------------------ *)
(** ** The classifier object *)

Record ConwayClassifier : Type := mkClassifier {
  classNum : Z;
  x : Z;
  y : Z;
  width : Z;
  height : Z;
  gameBoard : list bool;
  boardSize : Z
}.

(** The object when the constructor body starts: [classNum] is the first
    thing assigned; the other members hold no value yet and are written
    by [calcBoardSpecs] and [initializeGameBoard] before anything reads
    them, so the placeholders below are never observed. *)
Definition fresh_object : ConwayClassifier := mkClassifier 5 0 0 0 0 [] 0.

(** [populateIStreamVec]: one stream per generation 0..genNum, whether or
    not the file exists. [files i] is the text of the file of generation
    [i], if there is one. *)
Definition populateIStreamVec (files : nat -> option string) (genNum : Z)
    : outcome (list ifstream) :=
  if genNum =? Int.max_int then Undefined
  else Ok (map (fun i => open (files i)) (seq 0 (Z.to_nat (genNum + 1)))).

(** The running extremes of [calcBoardSpecs]. *)
Record bounds : Type := mkBounds { minX : Z; maxX : Z; minY : Z; maxY : Z }.

(** One iteration of the loop of [calcBoardSpecs]. The accumulator is
    [None] while [firstFile] is true, when the four variables are still
    uninitialised. *)
Definition calc_step (o : arg_order) (acc : option bounds) (f : ifstream)
    : outcome (option bounds * ifstream) :=
  let '(firstLine, f) := getline f EmptyString in
  let '(secLine, f) := getline f EmptyString in
  minInfo ← readPos o firstLine;
  let tempMinX := fst minInfo in
  let tempMinY := snd minInfo in
  maxPr ← readWidthHeight o secLine;
  let tempMaxX := Int.add tempMinX (fst maxPr) in
  let tempMaxY := Int.add tempMinY (snd maxPr) in
  let acc' :=
    match acc with
    | None => mkBounds tempMinX tempMaxX tempMinY tempMaxY
    | Some b =>
        mkBounds (if tempMinX <? minX b then tempMinX else minX b)
                 (if tempMaxX >? maxX b then tempMaxX else maxX b)
                 (if tempMinY <? minY b then tempMinY else minY b)
                 (if tempMaxY >? maxY b then tempMaxY else maxY b)
    end in
  Ok (Some acc', seekg0 f).

Fixpoint calc_loop (o : arg_order) (acc : option bounds)
    (dataFiles : list ifstream) : outcome (option bounds * list ifstream) :=
  match dataFiles with
  | [] => Ok (acc, [])
  | f :: rest =>
      '(acc', f') ← calc_step o acc f;
      '(acc'', rest') ← calc_loop o acc' rest;
      Ok (acc'', f' :: rest')
  end.

(** [ConwayClassifier::calcBoardSpecs]. With no stream at all the four
    extremes are read uninitialised. *)
Definition calcBoardSpecs (o : arg_order) (this : ConwayClassifier)
    (dataFiles : list ifstream) : outcome (ConwayClassifier * list ifstream) :=
  '(acc, dataFiles') ← calc_loop o None dataFiles;
  match acc with
  | None => Undefined
  | Some b =>
      Ok (mkClassifier (classNum this) (minX b) (minY b)
            (Int.sub (maxX b) (minX b)) (Int.sub (maxY b) (minY b))
            (gameBoard this) (boardSize this),
          dataFiles')
  end.

(* ------------------------------------------------------------------ *)
(** ** Board store *)

(** [ConwayClassifier::get1DIndex], in [int] arithmetic as the definition
    in the translation unit has it. *)
Definition get1DIndex (this : ConwayClassifier) (gen xCoord yCoord : Z) : Z :=
  let newX := Int.sub xCoord (x this) in
  let newY := Int.sub yCoord (y this) in
  Int.add (Int.add (Int.mul (Int.mul gen (width this)) (height this))
                   (Int.mul newY (width this)))
          newX.

(** Reading [gameBoard[i]]: defined inside the allocated block only. *)
Definition load (this : ConwayClassifier) (i : Z) : outcome bool :=
  if 0 <=? i then
    match gameBoard this !! Z.to_nat i with
    | Some b => Ok b
    | None => Undefined
    end
  else Undefined.

(** Writing [gameBoard[i] = val]. *)
Definition store (this : ConwayClassifier) (i : Z) (val : bool)
    : outcome ConwayClassifier :=
  if (0 <=? i) && (i <? Z.of_nat (length (gameBoard this))) then
    Ok (mkClassifier (classNum this) (x this) (y this) (width this)
          (height this) (<[Z.to_nat i := val]> (gameBoard this))
          (boardSize this))
  else Undefined.

(** [ConwayClassifier::getCellVal]. *)
Definition getCellVal (this : ConwayClassifier) (gen xCoord yCoord : Z)
    : outcome bool :=
  load this (get1DIndex this gen xCoord yCoord).

(** [ConwayClassifier::setCellVal]. *)
Definition setCellVal (this : ConwayClassifier) (gen xCoord yCoord : Z)
    (val : bool) : outcome ConwayClassifier :=
  store this (get1DIndex this gen xCoord yCoord) val.

(** [ConwayClassifier::initializeGameBoard]: [boardSize] cells, all dead.
    The allocation is taken to succeed for a positive size; for a size that
    is not positive no cell can be accessed. *)
Definition initializeGameBoard (this : ConwayClassifier) (genNum : Z)
    : ConwayClassifier :=
  let size := Int.mul (Int.mul (Int.add genNum 1) (width this)) (height this) in
  mkClassifier (classNum this) (x this) (y this) (width this) (height this)
    (replicate (Z.to_nat size) false) size.

(* ------------------------------------------------------------------ *)
(** ** Run-length filler *)

(** The variables the decoding loop of [fillBoard] updates. *)
Record cursor : Type := mkCursor {
  object : ConwayClassifier;
  currentX : Z;
  currentY : Z
}.

(** The body of the inner [for] loop: what one repetition of the tag [c]
    does. [startX] is [posInfo.first]. *)
Definition apply_tag (genNum startX : Z) (c : ascii) (st : cursor)
    : outcome cursor :=
  if (c =? "o")%char || (c =? "b")%char then
    this ← (if (c =? "o")%char
            then setCellVal (object st) genNum (currentX st) (currentY st) true
            else Ok (object st));
    Ok (mkCursor this (Int.add (currentX st) 1) (currentY st))
  else if (c =? "$")%char then
    Ok (mkCursor (object st) startX (Int.add (currentY st) 1))
  else Ok st.

(** [for (int i = 0; i < repCount; i++)]. *)
Fixpoint repeat_tag (repCount : nat) (genNum startX : Z) (c : ascii)
    (st : cursor) : outcome cursor :=
  match repCount with
  | O => Ok st
  | S n => st' ← apply_tag genNum startX c st; repeat_tag n genNum startX c st'
  end.

(** The loop [while (is->get(c))] over the unread characters. A digit sets
    [repCount] and one more character is read as the tag; when the stream
    ends right after a digit, [get] leaves [c] unchanged, so the digit
    itself is the tag. *)
Fixpoint decode (genNum startX : Z) (body : string) (st : cursor)
    : outcome cursor :=
  match body with
  | EmptyString => Ok st
  | String c rest =>
      if isdigit c then
        let repCount := Z.to_nat (char_code c - 48) in
        match rest with
        | String c' rest' =>
            st' ← repeat_tag repCount genNum startX c' st;
            decode genNum startX rest' st'
        | EmptyString => repeat_tag repCount genNum startX c st
        end
      else
        st' ← repeat_tag 1 genNum startX c st;
        decode genNum startX rest st'
  end.

(** One iteration of the outer loop of [fillBoard]: the two header lines,
    the position, then the body. A stream that is not good after the
    header lines yields no character. The text sent to [std::cout] is not
    modelled. *)
Definition fill_step (o : arg_order) (this : ConwayClassifier) (genNum : Z)
    (f : ifstream) : outcome ConwayClassifier :=
  let '(firstLine, f) := getline f EmptyString in
  let '(secLine, f) := getline f EmptyString in
  posInfo ← readPos o firstLine;
  let body := if stream_good f then unread f else EmptyString in
  st ← decode genNum (fst posInfo) body
         (mkCursor this (fst posInfo) (snd posInfo));
  Ok (object st).

Fixpoint fill_loop (o : arg_order) (this : ConwayClassifier) (genNum : Z)
    (dataFiles : list ifstream) : outcome ConwayClassifier :=
  match dataFiles with
  | [] => Ok this
  | f :: rest =>
      this' ← fill_step o this genNum f;
      fill_loop o this' (Int.add genNum 1) rest
  end.

(** [ConwayClassifier::fillBoard]. *)
Definition fillBoard (o : arg_order) (this : ConwayClassifier)
    (dataFiles : list ifstream) : outcome ConwayClassifier :=
  fill_loop o this 0 dataFiles.

(* ------------------------------------------------------------------ *)
(** ** Constructor and queries *)

(** [ConwayClassifier::ConwayClassifier(dataDirPath, genNum)]; the
    directory is given by the text of its generation files. *)
Definition construct (o : arg_order) (files : nat -> option string)
    (genNum : Z) : outcome ConwayClassifier :=
  let this := mkClassifier 5 (x fresh_object) (y fresh_object)
                (width fresh_object) (height fresh_object)
                (gameBoard fresh_object) (boardSize fresh_object) in
  fileStreams ← populateIStreamVec files genNum;
  '(this, fileStreams) ← calcBoardSpecs o this fileStreams;
  let this := initializeGameBoard this genNum in
  fillBoard o this fileStreams.

(** [ConwayClassifier::classification]: the branch for [classNum == 5] is
    empty. *)
Definition classification (this : ConwayClassifier) : Z :=
  if classNum this =? 5 then classNum this else classNum this.

Definition getCoords (this : ConwayClassifier) : Z * Z := (x this, y this).

Definition getDimensions (this : ConwayClassifier) : Z * Z :=
  (width this, height this).

(** C++ [a % b] on [int]: truncated remainder, undefined for [b = 0]. *)
Definition int_rem (a b : Z) : outcome Z :=
  if b =? 0 then Undefined else Ok (Z.rem a b).

Definition newline : ascii := "010"%char.

(** The loop of [printGameBoard] from cell [i], [n] cells to go. The test
    [i - index + 1 % width == 0] is read with the precedence of C++:
    [%] binds tighter than [+]. *)
Fixpoint print_loop (this : ConwayClassifier) (index : Z) (onChar offChar : ascii)
    (n : nat) (i : Z) (os : string) : outcome string :=
  match n with
  | O => Ok os
  | S n' =>
      cell ← load this i;
      let ch := if cell : bool then onChar else offChar in
      let os := (os ++ String ch EmptyString)%string in
      r ← int_rem 1 (width this);
      let os := if Int.add (Int.sub i index) r =? 0
                then (os ++ String newline EmptyString)%string else os in
      print_loop this index onChar offChar n' (Int.add i 1) os
  end.

(** [ConwayClassifier::printGameBoard]: the text appended to [os]. The
    loop runs while [i < index + genLen]. *)
Definition printGameBoard (this : ConwayClassifier) (genNum : Z)
    (onChar offChar : ascii) : outcome string :=
  let index := get1DIndex this genNum (x this) (y this) in
  let genLen := Int.mul (width this) (height this) in
  os ← print_loop this index onChar offChar
         (Z.to_nat (Int.add index genLen - index)) index EmptyString;
  Ok (os ++ String newline EmptyString)%string.

(* ------------------------------------------------------------------ *)
(** ** Running examples *)

Definition gen_file (pos dims body : string) : string :=
  ("#CXRLE Pos=" ++ pos ++ String newline EmptyString ++
   "x = " ++ dims ++ ", rule = B3/S23" ++ String newline EmptyString ++
   body)%string.

Definition two_gens (i : nat) : option string :=
  match i with
  | O => Some (gen_file "0,0" "3, y = 2" "3o$bob!")
  | S O => Some (gen_file "-1,0" "2, y = 3" "2o$$o!")
  | _ => None
  end.

(* ------------------------------------------------------------------ *)
(** ** Notions the statements below are phrased with *)

(** The envelope rectangle of an object. *)
Definition in_envelope (this : ConwayClassifier) (xCoord yCoord : Z) : Prop :=
  x this <= xCoord < x this + width this /\
  y this <= yCoord < y this + height this.

(** A valid cell of a board of [generationCount] generations. *)
Definition valid_cell (this : ConwayClassifier) (generationCount : Z)
    (gen xCoord yCoord : Z) : Prop :=
  0 <= gen < generationCount /\ in_envelope this xCoord yCoord.

(** A board allocated for [generationCount] generations whose volume fits
    [int]: what [initializeGameBoard (generationCount - 1)] leaves, cell
    values apart. *)
Record board_ok (this : ConwayClassifier) (generationCount : Z) : Prop := {
  ok_width : 0 < width this;
  ok_height : 0 < height this;
  ok_gens : 0 < generationCount;
  ok_x : Int.in_range (x this);
  ok_y : Int.in_range (y this);
  ok_volume : generationCount * width this * height this <= Int.max_int;
  ok_board :
    Z.of_nat (length (gameBoard this)) =
    generationCount * width this * height this
}.

(** The exact index formula, without machine arithmetic. *)
Definition flat_index (this : ConwayClassifier) (gen xCoord yCoord : Z) : Z :=
  gen * width this * height this
  + (yCoord - y this) * width this + (xCoord - x this).

(** Characterisation of [split] as the prose has it: nothing when the
    delimiter does not occur; for the first part, the text before the
    first occurrence unless it starts at position 0, when it is the text
    after the occurrence; for the second part, the text after the
    occurrence unless it starts at the last index, when it is nothing. *)
Definition after_occurrence (s d : string) (i : nat) : string :=
  String.substring (i + String.length d)
                   (String.length s - (i + String.length d)) s.

Definition split_described (s d : string) (firstStr : bool) : string :=
  match find s d with
  | None => EmptyString
  | Some i =>
      if firstStr then
        if Nat.eqb i 0 then after_occurrence s d i
        else String.substring 0 i s
      else
        if Nat.eqb i (String.length s - 1) then EmptyString
        else after_occurrence s d i
  end.

(** A frame header: position and dimensions. *)
Record header : Type := mkHeader { posX : Z; posY : Z; frameW : Z; frameH : Z }.

(** The two header lines of a stream, parsed. *)
Definition parse_header (o : arg_order) (f : ifstream) : outcome header :=
  let '(firstLine, f) := getline f EmptyString in
  let '(secLine, f) := getline f EmptyString in
  p ← readPos o firstLine;
  d ← readWidthHeight o secLine;
  Ok (mkHeader (fst p) (snd p) (fst d) (snd d)).

(** The envelope as the prose has it: the first frame seeds
    (minX, minY, minX + width, minY + height), the other frames are folded
    in with componentwise min and max, and the result is the origin with
    the two differences. *)
Definition frame_box (h : header) : bounds :=
  mkBounds (posX h) (posX h + frameW h) (posY h) (posY h + frameH h).

Definition join_box (acc : bounds) (h : header) : bounds :=
  mkBounds (Z.min (minX acc) (posX h)) (Z.max (maxX acc) (posX h + frameW h))
           (Z.min (minY acc) (posY h)) (Z.max (maxY acc) (posY h + frameH h)).

Definition fold_boxes (h : header) (rest : list header) : bounds :=
  fold_left join_box rest (frame_box h).

Definition frame_fits (h : header) : Prop :=
  Int.in_range (posX h + frameW h) /\ Int.in_range (posY h + frameH h).

Definition box_fits (b : bounds) : Prop :=
  Int.in_range (maxX b - minX b) /\ Int.in_range (maxY b - minY b).

(** The words [readPos] and [readWidthHeight] pick from a line: [n]
    extractions in a row into one string. *)
Definition extract_n (n : nat) (ss : sstream) (old : string) : string * sstream :=
  Nat.iter n (fun p => extract (snd p) (fst p)) (old, ss).

Definition pos_word (firstLine : string) : string :=
  fst (extract_n 2 (Some firstLine) EmptyString).

Definition width_word (secLine : string) : string :=
  fst (extract_n 3 (Some secLine) EmptyString).

Definition height_word (secLine : string) : string :=
  fst (extract_n 3 (snd (extract_n 3 (Some secLine) EmptyString)) EmptyString).

(** A piece [stoi] can convert: optional white space, an optional sign,
    then a decimal digit. *)
Definition numeric (s : string) : bool :=
  let s := skip_ws s in
  let s := match s with
           | String "-"%char r => r
           | String "+"%char r => r
           | _ => s
           end in
  match s with
  | String c _ => isdigit c
  | EmptyString => false
  end.

(** A first line whose position word is shorter than the qualifier, or
    from which [split] hands a piece that is not numeric (the empty piece
    included). *)
Definition bad_pos_line (firstLine : string) : Prop :=
  let word := pos_word firstLine in
  len word < posQualifierLen \/
  exists posStr firstStr piece,
    substr word posQualifierLen (Int.usub (len word) posQualifierLen)
      = Ok posStr /\
    split posStr "," firstStr = Ok piece /\ numeric piece = false.

(** A second line whose third or sixth word gives a piece that is not
    numeric. *)
Definition bad_dims_line (secLine : string) : Prop :=
  exists piece,
    (split (width_word secLine) "," true = Ok piece \/
     split (height_word secLine) "," true = Ok piece) /\
    numeric piece = false.

Definition header_lines (f : ifstream) : string * string :=
  let '(firstLine, f) := getline f EmptyString in
  let '(secLine, f) := getline f EmptyString in
  (firstLine, secLine).

Definition bad_header (file : option string) : Prop :=
  bad_pos_line (fst (header_lines (open file))) \/
  bad_dims_line (snd (header_lines (open file))).

(** The printed board as the prose has it: [height] rows of [width]
    characters, each row ended by a newline, then an empty line. *)
Definition cell_char (this : ConwayClassifier) (onChar offChar : ascii)
    (i : Z) : ascii :=
  match gameBoard this !! Z.to_nat i with
  | Some true => onChar
  | _ => offChar
  end.

Definition row_text (this : ConwayClassifier) (onChar offChar : ascii)
    (genNum : Z) (row : nat) : string :=
  string_of_list_ascii
    (map (fun col =>
            cell_char this onChar offChar
              (flat_index this genNum (x this + Z.of_nat col)
                                      (y this + Z.of_nat row)))
         (seq 0 (Z.to_nat (width this))))
  ++ String newline EmptyString.

Definition board_text (this : ConwayClassifier) (onChar offChar : ascii)
    (genNum : Z) : string :=
  fold_right String.append (String newline EmptyString)
    (map (row_text this onChar offChar genNum)
         (seq 0 (Z.to_nat (height this)))).

(** The classes as the header file names them. *)
Definition Extinct : Z := 1.
Definition Periodic : Z := 2.
Definition Unresolved : Z := 3.

(** How many of the generation files 0..genNum exist. *)
Definition available_files (files : nat -> option string) (genNum : Z) : nat :=
  length (filter (fun i => bool_decide (is_Some (files i)))
                 (seq 0 (Z.to_nat (genNum + 1)))).

(** Concrete boards and directories used below. *)
Definition one_file (text : string) (i : nat) : option string :=
  match i with
  | O => Some text
  | S _ => None
  end.

Definition row_of (n : Z) : ConwayClassifier :=
  initializeGameBoard (mkClassifier 5 0 0 n 1 [] 0) 0.

Definition small_board : ConwayClassifier :=
  initializeGameBoard (mkClassifier 5 (-1) 0 4 3 [] 0) 1.

Definition two_streams : list ifstream := [open (two_gens 0); open (two_gens 1)].

(** The words of a line, and whether one of them carries the position
    qualifier (in either spelling of its first letter). *)
Fixpoint words (fuel : nat) (s : string) : list string :=
  match fuel with
  | O => []
  | S k =>
      match skip_ws s with
      | EmptyString => []
      | String c r => let (w, r') := take_word (String c r) in w :: words k r'
      end
  end.

Definition is_pos_token (w : string) : bool :=
  String.prefix "pos=" w || String.prefix "Pos=" w.

Definition has_pos_token (line : string) : bool :=
  existsb is_pos_token (words (S (String.length line)) line).

Definition square_board : ConwayClassifier :=
  mkClassifier 5 0 0 2 2 [true; false; false; false] 4.

(** All cells of a generation in storage order on one line. *)
Definition cells_from (this : ConwayClassifier) (onChar offChar : ascii)
    (i : Z) (n : nat) : string :=
  string_of_list_ascii
    (map (fun k => cell_char this onChar offChar (i + Z.of_nat k)) (seq 0 n)).

Definition flat_text (this : ConwayClassifier) (onChar offChar : ascii)
    (genNum : Z) : string :=
  cells_from this onChar offChar (genNum * width this * height this)
    (Z.to_nat (width this * height this))
  ++ String newline EmptyString.

(** A character the decoding loop passes over: no digit and none of the
    three tags. *)
Definition ignorable (c : ascii) : bool :=
  negb (isdigit c) && negb (c =? "o")%char && negb (c =? "b")%char
  && negb (c =? "$")%char.

(** The count a digit stands for. *)
Definition digit_count (c : ascii) : nat := Z.to_nat (char_code c - 48).

(** Two objects that differ in cell values at most. *)
Definition same_shape (a b : ConwayClassifier) : Prop :=
  classNum b = classNum a /\ x b = x a /\ y b = y a /\
  width b = width a /\ height b = height a /\
  boardSize b = boardSize a /\
  length (gameBoard b) = length (gameBoard a).

(** The geometry [calcBoardSpecs] leaves for the two running files. *)
Definition two_gens_specs : ConwayClassifier := mkClassifier 5 (-1) 0 4 3 [] 0.

(** [b] has the shape of [a] and every cell alive in [a] is alive in
    [b]. *)
Definition grows (a b : ConwayClassifier) : Prop :=
  same_shape a b /\
  forall i : nat, gameBoard a !! i = Some true -> gameBoard b !! i = Some true.

(** Whether the cell is one of the [n] cells from column [cx] on in row
    [cy] of generation [g]. *)
Definition in_run (g cx cy : Z) (n : nat) (gen xCoord yCoord : Z) : bool :=
  (gen =? g) && (yCoord =? cy) && (cx <=? xCoord) && (xCoord <? cx + Z.of_nat n).

(** The frame of a header lies inside a box. *)
Definition frame_inside (b : bounds) (h : header) : Prop :=
  minX b <= posX h /\ posX h + frameW h <= maxX b /\
  minY b <= posY h /\ posY h + frameH h <= maxY b.

(** A stream put back on its first character, no state bit set. *)
Definition rewound (f : ifstream) : ifstream :=
  mkStream (contents f) (contents f) false false.

(* ================================================================== *)
(** * Properties *)

Ltac bind_inv H :=
  match type of H with
  | mbind _ ?m = Ok _ =>
      let E := fresh "E" in
      destruct m eqn:E; cbn [mbind outcome_bind] in H;
      [| discriminate H | discriminate H]
  | (?m ≫= _) = Ok _ =>
      let E := fresh "E" in
      destruct m eqn:E; cbn [mbind outcome_bind] in H;
      [| discriminate H | discriminate H]
  end.

(** ** The model on concrete inputs *)

Example split_before : split "-10,-5" "," true = Ok "-10".
Proof. reflexivity. Qed.

Example split_after : split "-10,-5" "," false = Ok "-5".
Proof. reflexivity. Qed.

Example split_none : split "abc" "," true = Ok EmptyString.
Proof. reflexivity. Qed.

Example split_leading : split ",5" "," true = Ok "5".
Proof. reflexivity. Qed.

Example split_empty_empty : split EmptyString EmptyString true = Throw out_of_range.
Proof. reflexivity. Qed.

Example readPos_golly :
  readPos LeftToRight "#CXRLE Pos=-10,-5" = Ok (-10, -5).
Proof. reflexivity. Qed.

Example readWidthHeight_golly :
  readWidthHeight LeftToRight "x = 12, y = 7, rule = B3/S23" = Ok (12, 7).
Proof. reflexivity. Qed.

Example readPos_empty : readPos LeftToRight EmptyString = Throw out_of_range.
Proof. reflexivity. Qed.

Example readWidthHeight_empty :
  readWidthHeight RightToLeft EmptyString = Throw invalid_argument.
Proof. reflexivity. Qed.

Example construct_two_gens :
  construct LeftToRight two_gens 1 =
  Ok (mkClassifier 5 (-1) 0 4 3
        [false; true; true; true;  false; false; true; false;
         false; false; false; false;
         true; true; false; false;  false; false; false; false;
         true; false; false; false] 24).
Proof. vm_compute. reflexivity. Qed.

Example has_pos_token_golly : has_pos_token "#CXRLE Pos=-10,-5" = true.
Proof. reflexivity. Qed.

(** ** Machine arithmetic *)

Lemma wrap_small z : Int.in_range z -> Int.wrap z = z.
Proof.
  unfold Int.in_range, Int.min_int, Int.max_int, Int.wrap. intros Hz.
  rewrite Z.mod_small; lia.
Qed.

Lemma wrap_in_range z : Int.in_range (Int.wrap z).
Proof.
  unfold Int.in_range, Int.min_int, Int.max_int, Int.wrap.
  pose proof (Z.mod_pos_bound (z + 2 ^ 31) (2 ^ 32) ltac:(lia)). lia.
Qed.

Lemma wrap_congr a b :
  a mod 2 ^ 32 = b mod 2 ^ 32 -> Int.wrap a = Int.wrap b.
Proof.
  unfold Int.wrap. intros H.
  rewrite <- (Zplus_mod_idemp_l a), <- (Zplus_mod_idemp_l b), H. reflexivity.
Qed.

Lemma wrap_mod z : Int.wrap z mod 2 ^ 32 = z mod 2 ^ 32.
Proof.
  unfold Int.wrap.
  rewrite Zminus_mod, Z.mod_mod by lia.
  rewrite <- Zminus_mod. f_equal. lia.
Qed.

Lemma wrap_add_l a b : Int.wrap (Int.wrap a + b) = Int.wrap (a + b).
Proof.
  apply wrap_congr. rewrite Zplus_mod, wrap_mod, <- Zplus_mod. reflexivity.
Qed.

Lemma wrap_add_r a b : Int.wrap (a + Int.wrap b) = Int.wrap (a + b).
Proof. rewrite Z.add_comm, wrap_add_l. f_equal. lia. Qed.

Lemma wrap_mul_l a b : Int.wrap (Int.wrap a * b) = Int.wrap (a * b).
Proof.
  apply wrap_congr. rewrite Zmult_mod, wrap_mod, <- Zmult_mod. reflexivity.
Qed.

Lemma wrap_mul_r a b : Int.wrap (a * Int.wrap b) = Int.wrap (a * b).
Proof. rewrite Z.mul_comm, wrap_mul_l. f_equal. lia. Qed.

Lemma wrap_add_ll a b c :
  Int.wrap (Int.wrap a + b + c) = Int.wrap (a + b + c).
Proof. rewrite <- Z.add_assoc, wrap_add_l. f_equal. lia. Qed.

Lemma wrap_add_lr a b c :
  Int.wrap (a + Int.wrap b + c) = Int.wrap (a + b + c).
Proof.
  replace (a + Int.wrap b + c) with (Int.wrap b + (a + c)) by lia.
  rewrite wrap_add_l. f_equal. lia.
Qed.

(** Machine index and exact index agree modulo 2^32. *)
Lemma get1DIndex_wrap this gen xCoord yCoord :
  get1DIndex this gen xCoord yCoord =
  Int.wrap (flat_index this gen xCoord yCoord).
Proof.
  unfold get1DIndex, flat_index, Int.add, Int.sub, Int.mul.
  repeat first [ rewrite wrap_mul_l | rewrite wrap_mul_r
               | rewrite wrap_add_l | rewrite wrap_add_r
               | rewrite wrap_add_ll | rewrite wrap_add_lr ].
  reflexivity.
Qed.

(* ------------------------------------------------------------------ *)
(** ** Board store *)

Lemma flat_index_bounds this G gen xCoord yCoord :
  board_ok this G -> valid_cell this G gen xCoord yCoord ->
  0 <= flat_index this gen xCoord yCoord < G * width this * height this.
Proof.
  intros [Hw Hh HG _ _ _ _] [Hg [Hx Hy]]. unfold flat_index.
  set (a := yCoord - y this). set (b := xCoord - x this).
  set (w := width this) in *. set (h := height this) in *.
  assert (0 <= a <= h - 1) by lia. assert (0 <= b <= w - 1) by lia.
  assert (0 <= gen <= G - 1) by lia.
  assert (0 <= a * w) by nia.
  assert (a * w <= (h - 1) * w) by nia.
  assert (0 <= gen * (w * h)) by nia.
  assert (gen * (w * h) <= (G - 1) * (w * h)) by nia.
  nia.
Qed.

Lemma get1DIndex_exact this G gen xCoord yCoord :
  board_ok this G -> valid_cell this G gen xCoord yCoord ->
  get1DIndex this gen xCoord yCoord = flat_index this gen xCoord yCoord.
Proof.
  intros Hok Hv. rewrite get1DIndex_wrap. apply wrap_small.
  pose proof (flat_index_bounds _ _ _ _ _ Hok Hv) as Hb.
  pose proof (ok_volume _ _ Hok).
  unfold Int.in_range, Int.min_int, Int.max_int in *. lia.
Qed.

Lemma flat_index_inj this G g1 x1 y1 g2 x2 y2 :
  board_ok this G ->
  valid_cell this G g1 x1 y1 -> valid_cell this G g2 x2 y2 ->
  flat_index this g1 x1 y1 = flat_index this g2 x2 y2 ->
  g1 = g2 /\ x1 = x2 /\ y1 = y2.
Proof.
  intros [Hw Hh _ _ _ _ _] [Hg1 [Hx1 Hy1]] [Hg2 [Hx2 Hy2]]. unfold flat_index.
  intros E.
  assert (E1 : width this * (g1 * height this + (y1 - y this)) + (x1 - x this)
             = width this * (g2 * height this + (y2 - y this)) + (x2 - x this))
    by lia.
  apply Z.div_mod_unique in E1; [| lia | lia]. destruct E1 as [E2 E3].
  assert (E4 : height this * g1 + (y1 - y this)
             = height this * g2 + (y2 - y this)) by lia.
  apply Z.div_mod_unique in E4; [| lia | lia]. lia.
Qed.

Lemma load_store this i v this' :
  store this i v = Ok this' -> load this' i = Ok v.
Proof.
  unfold store, load. destruct (0 <=? i) eqn:E0; simpl; [| discriminate].
  destruct (i <? _) eqn:E1; [| discriminate].
  cbn [andb]. intros H. injection H as <-. cbn [gameBoard].
  rewrite list_lookup_insert_eq; [reflexivity | lia].
Qed.

Lemma store_in_buffer this i v :
  0 <= i < Z.of_nat (length (gameBoard this)) ->
  exists this', store this i v = Ok this'.
Proof.
  intros H. unfold store.
  destruct (0 <=? i) eqn:E0; [| lia]. destruct (i <? _) eqn:E1; [| lia].
  simpl. eauto.
Qed.

Lemma load_in_buffer this i :
  0 <= i < Z.of_nat (length (gameBoard this)) ->
  exists b, load this i = Ok b.
Proof.
  intros H. unfold load. destruct (0 <=? i) eqn:E0; [| lia].
  destruct (lookup_lt_is_Some_2 (gameBoard this) (Z.to_nat i)) as [b Hb];
    [lia |]. rewrite Hb. eauto.
Qed.

Lemma setCellVal_store this gen xCoord yCoord v :
  setCellVal this gen xCoord yCoord v
  = store this (get1DIndex this gen xCoord yCoord) v.
Proof. reflexivity. Qed.

Lemma store_other this i j v this' :
  store this i v = Ok this' -> 0 <= j -> i <> j -> load this' j = load this j.
Proof.
  unfold store, load. destruct (_ && _) eqn:E; [| discriminate].
  intros H Hj Hne. injection H as <-. cbn [gameBoard].
  destruct (0 <=? j); [| reflexivity].
  rewrite list_lookup_insert_ne; [reflexivity | lia].
Qed.

Lemma store_same_shape this i v this' :
  store this i v = Ok this' -> same_shape this this'.
Proof.
  unfold store. destruct (_ && _); [| discriminate]. intros H.
  injection H as <-. unfold same_shape.
  cbn [classNum x y width height boardSize gameBoard].
  rewrite length_insert. repeat split; reflexivity.
Qed.

Lemma same_shape_index a b gen xCoord yCoord :
  same_shape a b -> get1DIndex b gen xCoord yCoord = get1DIndex a gen xCoord yCoord.
Proof.
  intros (_ & Hx & Hy & Hw & Hh & _). unfold get1DIndex.
  now rewrite Hx, Hy, Hw, Hh.
Qed.

Lemma same_shape_ok a b G : same_shape a b -> board_ok a G -> board_ok b G.
Proof.
  intros (_ & Hx & Hy & Hw & Hh & _ & Hl) [? ? ? ? ? ? ?].
  constructor; rewrite ?Hx, ?Hy, ?Hw, ?Hh, ?Hl; assumption.
Qed.

Lemma same_shape_valid a b G gen xCoord yCoord :
  same_shape a b -> valid_cell a G gen xCoord yCoord ->
  valid_cell b G gen xCoord yCoord.
Proof.
  intros (_ & Hx & Hy & Hw & Hh & _). unfold valid_cell, in_envelope.
  now rewrite Hx, Hy, Hw, Hh.
Qed.

Lemma same_shape_refl a : same_shape a a.
Proof. unfold same_shape. repeat split; reflexivity. Qed.

Lemma same_shape_trans a b c : same_shape a b -> same_shape b c -> same_shape a c.
Proof. unfold same_shape. intuition congruence. Qed.

(** [initializeGameBoard] allocates a well-formed board whenever the
    volume fits. *)
Lemma initializeGameBoard_ok this genNum :
  0 < width this -> 0 < height this -> 0 <= genNum ->
  Int.in_range (x this) -> Int.in_range (y this) ->
  (genNum + 1) * width this * height this <= Int.max_int ->
  board_ok (initializeGameBoard this genNum) (genNum + 1).
Proof.
  intros Hw Hh Hg Hx Hy Hv.
  assert (Hs : Int.mul (Int.mul (Int.add genNum 1) (width this)) (height this)
               = (genNum + 1) * width this * height this).
  { unfold Int.mul, Int.add.
    assert (1 <= width this * height this) by nia.
    assert (genNum + 1 <= (genNum + 1) * (width this * height this)) by nia.
    assert ((genNum + 1) * width this
            <= (genNum + 1) * width this * height this) by nia.
    rewrite (wrap_small (genNum + 1)), (wrap_small ((genNum + 1) * width this));
      [apply wrap_small | |];
      unfold Int.in_range, Int.min_int, Int.max_int in *; nia. }
  constructor; simpl; try assumption; try lia.
  rewrite Hs, length_replicate. nia.
Qed.

Lemma setCellVal_keeps_ok this G gen xCoord yCoord v this' :
  board_ok this G -> setCellVal this gen xCoord yCoord v = Ok this' ->
  board_ok this' G.
Proof.
  intros Hok Hs. rewrite setCellVal_store in Hs.
  eapply same_shape_ok; [eapply store_same_shape; exact Hs | exact Hok].
Qed.

(** C5: on a board allocated for [generationCount] generations whose
    volume fits [int], writing a valid cell and reading it back returns
    the written value, and [get1DIndex] sends distinct valid triples to
    distinct offsets. *)
Theorem set_get_roundtrip_index_injective this generationCount :
  board_ok this generationCount ->
  (forall gen xCoord yCoord v,
      valid_cell this generationCount gen xCoord yCoord ->
      exists this',
        setCellVal this gen xCoord yCoord v = Ok this' /\
        getCellVal this' gen xCoord yCoord = Ok v) /\
  (forall g1 x1 y1 g2 x2 y2,
      valid_cell this generationCount g1 x1 y1 ->
      valid_cell this generationCount g2 x2 y2 ->
      get1DIndex this g1 x1 y1 = get1DIndex this g2 x2 y2 ->
      g1 = g2 /\ x1 = x2 /\ y1 = y2).
Proof.
  intros Hok. split.
  - intros gen xCoord yCoord v Hv.
    pose proof (flat_index_bounds _ _ _ _ _ Hok Hv) as Hb.
    pose proof (get1DIndex_exact _ _ _ _ _ Hok Hv) as Hi.
    destruct (store_in_buffer this (get1DIndex this gen xCoord yCoord) v)
      as [this' Hs].
    { rewrite Hi, (ok_board _ _ Hok). exact Hb. }
    exists this'. split; [exact Hs |].
    unfold getCellVal.
    rewrite (same_shape_index _ _ _ _ _ (store_same_shape _ _ _ _ Hs)).
    eapply load_store; exact Hs.
  - intros g1 x1 y1 g2 x2 y2 H1 H2 E.
    rewrite (get1DIndex_exact _ _ _ _ _ Hok H1) in E.
    rewrite (get1DIndex_exact _ _ _ _ _ Hok H2) in E.
    eapply flat_index_inj; eauto.
Qed.

Lemma small_board_ok : board_ok small_board 2.
Proof.
  apply (initializeGameBoard_ok (mkClassifier 5 (-1) 0 4 3 [] 0) 1);
    simpl; unfold Int.in_range, Int.min_int, Int.max_int; lia.
Qed.

Lemma set_get_roundtrip_index_injective_witness :
  (exists this',
      setCellVal small_board 1 2 1 true = Ok this' /\
      getCellVal this' 1 2 1 = Ok true) /\
  (get1DIndex small_board 1 2 1 = get1DIndex small_board 1 2 1 ->
   1 = 1 /\ 2 = 2 /\ 1 = 1).
Proof.
  destruct (set_get_roundtrip_index_injective small_board 2 small_board_ok)
    as [Hset Hinj].
  assert (Hv : valid_cell small_board 2 1 2 1).
  { unfold valid_cell, in_envelope. simpl. lia. }
  split.
  - exact (Hset 1 2 1 true Hv).
  - exact (Hinj 1 2 1 1 2 1 Hv Hv).
Defined.

(** C10: one column left of the origin, on any row of the envelope but the
    first, the index is that of the last cell of the row above, so
    [getCellVal] there gives what that cell holds; the coordinate is
    outside the envelope, the aliased cell is inside, and on an allocated
    board the read returns the very value the buffer stores for the
    aliased cell: whatever [setCellVal] writes to that cell is what the
    read at the outside coordinate returns afterwards. *)
Theorem left_of_origin_aliases_previous_row this gen yCoord :
  y this < yCoord < y this + height this ->
  get1DIndex this gen (x this - 1) yCoord
    = get1DIndex this gen (x this + width this - 1) (yCoord - 1) /\
  getCellVal this gen (x this - 1) yCoord
    = getCellVal this gen (x this + width this - 1) (yCoord - 1) /\
  ~ in_envelope this (x this - 1) yCoord /\
  (forall generationCount,
      board_ok this generationCount -> 0 <= gen < generationCount ->
      in_envelope this (x this + width this - 1) (yCoord - 1) /\
      (exists b,
          gameBoard this
            !! Z.to_nat (flat_index this gen (x this + width this - 1)
                                             (yCoord - 1)) = Some b /\
          getCellVal this gen (x this - 1) yCoord = Ok b) /\
      (forall v, exists this',
          setCellVal this gen (x this + width this - 1) (yCoord - 1) v
            = Ok this' /\
          getCellVal this' gen (x this - 1) yCoord = Ok v)).
Proof.
  intros Hy.
  assert (E : get1DIndex this gen (x this - 1) yCoord
              = get1DIndex this gen (x this + width this - 1) (yCoord - 1)).
  { rewrite !get1DIndex_wrap. f_equal. unfold flat_index. ring. }
  split; [exact E |]. split; [unfold getCellVal; rewrite E; reflexivity |].
  split; [unfold in_envelope; lia |].
  intros G Hok Hg.
  assert (Hin : in_envelope this (x this + width this - 1) (yCoord - 1)).
  { pose proof (ok_width _ _ Hok). unfold in_envelope. lia. }
  split; [exact Hin |].
  assert (Hv : valid_cell this G gen (x this + width this - 1) (yCoord - 1))
    by (split; assumption).
  pose proof (get1DIndex_exact _ _ _ _ _ Hok Hv) as Hi.
  pose proof (flat_index_bounds _ _ _ _ _ Hok Hv) as Hb.
  rewrite <- (ok_board _ _ Hok) in Hb.
  split.
  - destruct (lookup_lt_is_Some_2 (gameBoard this)
                (Z.to_nat (flat_index this gen (x this + width this - 1)
                                               (yCoord - 1))))
      as [b Hlook]; [lia |].
    exists b. split; [exact Hlook |].
    unfold getCellVal. rewrite E, Hi. unfold load.
    destruct (Z.leb_spec 0 (flat_index this gen (x this + width this - 1)
                                               (yCoord - 1))); [| lia].
    now rewrite Hlook.
  - intros v.
    destruct (store_in_buffer this
                (get1DIndex this gen (x this + width this - 1) (yCoord - 1)) v)
      as [this' Hs]; [rewrite Hi; exact Hb |].
    exists this'. rewrite setCellVal_store. split; [exact Hs |].
    unfold getCellVal.
    rewrite (same_shape_index _ _ _ _ _ (store_same_shape _ _ _ _ Hs)), E.
    eapply load_store; exact Hs.
Qed.

Lemma left_of_origin_aliases_previous_row_witness :
  get1DIndex small_board 0 (x small_board - 1) 1
    = get1DIndex small_board 0 (x small_board + width small_board - 1) (1 - 1) /\
  getCellVal small_board 0 (x small_board - 1) 1
    = getCellVal small_board 0 (x small_board + width small_board - 1) (1 - 1) /\
  ~ in_envelope small_board (x small_board - 1) 1 /\
  (forall generationCount,
      board_ok small_board generationCount -> 0 <= 0 < generationCount ->
      in_envelope small_board (x small_board + width small_board - 1) (1 - 1) /\
      (exists b,
          gameBoard small_board
            !! Z.to_nat (flat_index small_board 0
                           (x small_board + width small_board - 1) (1 - 1))
            = Some b /\
          getCellVal small_board 0 (x small_board - 1) 1 = Ok b) /\
      (forall v, exists this',
          setCellVal small_board 0
            (x small_board + width small_board - 1) (1 - 1) v = Ok this' /\
          getCellVal this' 0 (x small_board - 1) 1 = Ok v)).
Proof.
  apply (left_of_origin_aliases_previous_row small_board 0 1). simpl. lia.
Defined.

(** The accessors have no exception path at all. *)
Lemma accessors_never_throw this gen xCoord yCoord v e :
  getCellVal this gen xCoord yCoord <> Throw e /\
  setCellVal this gen xCoord yCoord v <> Throw e.
Proof.
  unfold getCellVal, setCellVal, load, store. split.
  - destruct (0 <=? _); [destruct (_ !! _) |]; discriminate.
  - destruct (_ && _); discriminate.
Qed.

(** C4: on the 4 by 3 board with origin (-1, 0), the coordinate (-2, 1) is
    outside the envelope, yet [getCellVal] answers there with the value
    stored for the cell (2, 0), and [setCellVal] there writes that cell;
    nothing is raised. *)
Theorem accessors_unchecked_outside_envelope :
  ~ in_envelope small_board (-2) 1 /\
  (exists this',
      setCellVal small_board 0 2 0 true = Ok this' /\
      getCellVal this' 0 (-2) 1 = Ok true) /\
  (exists this',
      setCellVal small_board 0 (-2) 1 true = Ok this' /\
      getCellVal this' 0 2 0 = Ok true) /\
  getCellVal small_board 0 (-2) 1 = Ok false /\
  getCellVal small_board 0 0 7 = Undefined.
Proof.
  split; [unfold in_envelope; simpl; lia |].
  split; [eexists; split; [vm_compute; reflexivity | vm_compute; reflexivity] |].
  split; [eexists; split; [vm_compute; reflexivity | vm_compute; reflexivity] |].
  split; vm_compute; reflexivity.
Qed.

(* ------------------------------------------------------------------ *)
(** ** Run-length filler *)

Lemma isdigit_code c : isdigit c = true -> 48 <= char_code c <= 57.
Proof. unfold isdigit. lia. Qed.

Lemma eqb_code (c d : ascii) : (c =? d)%char = true -> char_code c = char_code d.
Proof. intros H. apply Ascii.eqb_eq in H. now subst. Qed.

(** A character that is none of [o], [b], [$] leaves the cursor and the
    board as they are, however often it is repeated. *)
Lemma apply_tag_other genNum startX c st :
  (c =? "o")%char = false -> (c =? "b")%char = false ->
  (c =? "$")%char = false ->
  apply_tag genNum startX c st = Ok st.
Proof. intros Ho Hb Hd. unfold apply_tag. rewrite Ho, Hb, Hd. reflexivity. Qed.

Lemma repeat_tag_other n genNum startX c st :
  (c =? "o")%char = false -> (c =? "b")%char = false ->
  (c =? "$")%char = false ->
  repeat_tag n genNum startX c st = Ok st.
Proof.
  intros Ho Hb Hd. induction n as [| n IH]; simpl; [reflexivity |].
  rewrite apply_tag_other by assumption. exact IH.
Qed.

Lemma digit_is_no_tag c :
  isdigit c = true ->
  (c =? "o")%char = false /\ (c =? "b")%char = false /\
  (c =? "$")%char = false.
Proof.
  intros Hd. apply isdigit_code in Hd.
  repeat split;
    (destruct (Ascii.eqb c _) eqn:E; [| reflexivity];
     apply eqb_code in E; rewrite E in Hd; vm_compute in Hd;
     destruct Hd as [H1 H2]; first [now elim H1 | now elim H2]).
Qed.

(** Two digits in a row: the first is taken as the count, the second as
    the tag, and both are dropped without effect. *)
Lemma decode_two_digits genNum startX d1 d2 rest st :
  isdigit d1 = true -> isdigit d2 = true ->
  decode genNum startX (String d1 (String d2 rest)) st
    = decode genNum startX rest st.
Proof.
  intros H1 H2. simpl. rewrite H1.
  destruct (digit_is_no_tag d2 H2) as (Ho & Hb & Hd).
  rewrite repeat_tag_other by assumption. reflexivity.
Qed.

(** The character [!] is decoded like any other unknown tag: the loop goes
    on with what follows. *)
Lemma decode_bang genNum startX rest st :
  decode genNum startX (String "!"%char rest) st = decode genNum startX rest st.
Proof. reflexivity. Qed.

(** C1: the body [12o] on a row of 12 dead cells sets one cell and moves
    the cursor by one, exactly as the body [o] does, where the run of
    twelve would set all twelve cells; the same through the constructor. *)
Theorem count_of_two_digits_sets_one_cell :
  decode 0 0 "12o" (mkCursor (row_of 12) 0 0)
    = Ok (mkCursor (mkClassifier 5 0 0 12 1 (true :: replicate 11 false) 12) 1 0) /\
  decode 0 0 "12o" (mkCursor (row_of 12) 0 0)
    = decode 0 0 "o" (mkCursor (row_of 12) 0 0) /\
  decode 0 0 "oooooooooooo" (mkCursor (row_of 12) 0 0)
    = Ok (mkCursor (mkClassifier 5 0 0 12 1 (replicate 12 true) 12) 12 0) /\
  construct LeftToRight (one_file (gen_file "0,0" "12, y = 1" "12o!")) 0
    = Ok (mkClassifier 5 0 0 12 1 (true :: replicate 11 false) 12).
Proof. repeat split; vm_compute; reflexivity. Qed.

(** C3: after [!] the decoder keeps reading: the body [o!bo] on a row of
    three sets the first and the third cell, where stopping at [!] would
    leave the third cell dead; the same through the constructor. *)
Theorem bang_does_not_stop_decoding :
  decode 0 0 "o!bo" (mkCursor (row_of 3) 0 0)
    = Ok (mkCursor (mkClassifier 5 0 0 3 1 [true; false; true] 3) 3 0) /\
  decode 0 0 "o" (mkCursor (row_of 3) 0 0)
    = Ok (mkCursor (mkClassifier 5 0 0 3 1 [true; false; false] 3) 1 0) /\
  construct LeftToRight (one_file (gen_file "0,0" "3, y = 1" "o!bo")) 0
    = Ok (mkClassifier 5 0 0 3 1 [true; false; true] 3).
Proof. repeat split; vm_compute; reflexivity. Qed.

(* ------------------------------------------------------------------ *)
(** ** Classification *)

Lemma store_classNum this i v this' :
  store this i v = Ok this' -> classNum this' = classNum this.
Proof.
  intros H. now destruct (store_same_shape _ _ _ _ H) as [? _].
Qed.

Lemma apply_tag_classNum genNum startX c st st' :
  apply_tag genNum startX c st = Ok st' ->
  classNum (object st') = classNum (object st).
Proof.
  unfold apply_tag. destruct (_ || _).
  - destruct (Ascii.eqb c "o"); intros H.
    + bind_inv H. injection H as <-. simpl.
      rewrite setCellVal_store in E. eapply store_classNum; eauto.
    + simpl in H. now injection H as <-.
  - destruct (Ascii.eqb c "$"); now intros [= <-].
Qed.

Lemma repeat_tag_classNum n genNum startX c : forall st st',
  repeat_tag n genNum startX c st = Ok st' ->
  classNum (object st') = classNum (object st).
Proof.
  induction n as [| n IH]; simpl; intros st st' H.
  - now injection H as <-.
  - bind_inv H. apply IH in H. apply apply_tag_classNum in E. congruence.
Qed.

Lemma decode_classNum genNum startX body : forall st st',
  decode genNum startX body st = Ok st' ->
  classNum (object st') = classNum (object st).
Proof.
  remember (String.length body) as n eqn:Hn.
  revert body Hn. induction n as [n IH] using lt_wf_ind.
  intros [| c rest] Hn st st' H; simpl in H.
  - now injection H as <-.
  - destruct (isdigit c).
    + destruct rest as [| c' rest'].
      * eapply repeat_tag_classNum; eauto.
      * bind_inv H. apply repeat_tag_classNum in E.
        eapply (IH (String.length rest')) in H; [congruence | | reflexivity].
        subst n. simpl. lia.
    + bind_inv H. apply (repeat_tag_classNum 1) in E.
      eapply (IH (String.length rest)) in H; [congruence | | reflexivity].
      subst n. simpl. lia.
Qed.

Lemma fill_step_classNum o this genNum f this' :
  fill_step o this genNum f = Ok this' -> classNum this' = classNum this.
Proof.
  unfold fill_step. destruct (getline f _) as [l1 f1].
  destruct (getline f1 _) as [l2 f2]. intros H.
  bind_inv H. bind_inv H. injection H as <-.
  apply decode_classNum in E0. exact E0.
Qed.

Lemma fill_loop_classNum o dataFiles : forall this genNum this',
  fill_loop o this genNum dataFiles = Ok this' ->
  classNum this' = classNum this.
Proof.
  induction dataFiles as [| f rest IH]; simpl; intros this genNum this' H.
  - now injection H as <-.
  - bind_inv H. apply IH in H. apply fill_step_classNum in E. congruence.
Qed.

(** Every object the constructor returns answers [classification] with
    the initial value 5, which is none of the three classes. *)
Lemma classification_of_constructed o files genNum this :
  construct o files genNum = Ok this ->
  classification this = 5 /\
  classification this <> Extinct /\ classification this <> Periodic /\
  classification this <> Unresolved.
Proof.
  intros H. assert (Hc : classNum this = 5).
  { unfold construct in H. bind_inv H. bind_inv H. destruct a0 as [this0 fs].
    unfold fillBoard in H. apply fill_loop_classNum in H. rewrite H.
    unfold calcBoardSpecs in E0. bind_inv E0. destruct a0 as [[b |] fs'];
      [| discriminate]. now injection E0 as <- <-. }
  unfold classification, Extinct, Periodic, Unresolved.
  rewrite Hc. simpl. lia.
Qed.

(** C2: with both generation files present and one generation requested,
    the constructor returns an object and [classification] answers 5,
    neither Periodic nor Unresolved; with three generations requested and
    only two files present no object is constructed, the constructor
    leaves by [std::out_of_range]. *)
Theorem classification_never_computed :
  (available_files two_gens 1 = 2%nat /\
   exists this,
     construct LeftToRight two_gens 1 = Ok this /\
     classification this = 5 /\
     classification this <> Extinct /\ classification this <> Periodic /\
     classification this <> Unresolved) /\
  (available_files two_gens 3 = 2%nat /\
   construct LeftToRight two_gens 3 = Throw out_of_range /\
   construct RightToLeft two_gens 3 = Throw out_of_range).
Proof.
  split.
  - split; [reflexivity |].
    eexists. split; [vm_compute; reflexivity |].
    unfold Extinct, Periodic, Unresolved. vm_compute. repeat split; discriminate.
  - split; [reflexivity |]. split; vm_compute; reflexivity.
Qed.

(* ------------------------------------------------------------------ *)
(** ** Bounding box *)

Lemma calc_step_parsed o acc f h :
  parse_header o f = Ok h -> frame_fits h ->
  exists f',
    calc_step o acc f =
    Ok (Some (match acc with
              | None => frame_box h
              | Some b => join_box b h
              end), f').
Proof.
  unfold parse_header, calc_step.
  destruct (getline f _) as [l1 f1]. destruct (getline f1 _) as [l2 f2].
  intros H [Hx Hy]. bind_inv H. bind_inv H. injection H as <-.
  simpl in *. unfold Int.add. rewrite !wrap_small by assumption.
  eexists. do 3 f_equal. destruct acc as [b |]; [| reflexivity].
  unfold join_box, frame_box. simpl.
  f_equal.
  - destruct (Z.ltb_spec a.1 (minX b)); lia.
  - destruct (Z.gtb_spec (a.1 + a0.1) (maxX b)); lia.
  - destruct (Z.ltb_spec a.2 (minY b)); lia.
  - destruct (Z.gtb_spec (a.2 + a0.2) (maxY b)); lia.
Qed.

Lemma calc_loop_parsed o dataFiles : forall hs acc,
  Forall2 (fun f h => parse_header o f = Ok h) dataFiles hs ->
  Forall frame_fits hs ->
  exists dataFiles',
    calc_loop o acc dataFiles =
    Ok (match hs with
        | [] => acc
        | h :: rest =>
            Some (fold_left join_box rest
                    (match acc with
                     | None => frame_box h
                     | Some b => join_box b h
                     end))
        end, dataFiles').
Proof.
  induction dataFiles as [| f fs IH]; intros hs acc HP HF.
  - inversion HP; subst. simpl. eauto.
  - inversion HP as [| ? h ? hs' Hh Hrest]; subst.
    inversion HF as [| ? ? Hfit Hfits]; subst.
    destruct (calc_step_parsed o acc f h Hh Hfit) as [f' Hs].
    destruct (IH hs' (Some (match acc with
                            | None => frame_box h
                            | Some b => join_box b h
                            end)) Hrest Hfits) as [fs' Hl].
    simpl. rewrite Hs. simpl. rewrite Hl. simpl.
    eexists. f_equal. f_equal. destruct hs' as [| h' rest']; reflexivity.
Qed.

(** C6: for a non-empty sequence of streams whose headers parse, with the
    frame corners and the final extents inside [int], [calcBoardSpecs]
    returns the origin and the extents of the box that starts from the
    first frame's (minX, minY, minX + width, minY + height) and is folded
    over the other frames with componentwise min and max. *)
Theorem calcBoardSpecs_seeds_and_folds o this dataFiles h hs :
  Forall2 (fun f h' => parse_header o f = Ok h') dataFiles (h :: hs) ->
  Forall frame_fits (h :: hs) ->
  box_fits (fold_boxes h hs) ->
  exists this' dataFiles',
    calcBoardSpecs o this dataFiles = Ok (this', dataFiles') /\
    x this' = minX (fold_boxes h hs) /\
    y this' = minY (fold_boxes h hs) /\
    width this' = maxX (fold_boxes h hs) - minX (fold_boxes h hs) /\
    height this' = maxY (fold_boxes h hs) - minY (fold_boxes h hs).
Proof.
  intros HP HF [Hw Hh].
  destruct (calc_loop_parsed o dataFiles (h :: hs) None HP HF) as [fs' Hl].
  unfold calcBoardSpecs. rewrite Hl. simpl.
  eexists. eexists. split; [reflexivity |]. simpl.
  unfold Int.sub, fold_boxes in *. rewrite !wrap_small by assumption.
  repeat split; reflexivity.
Qed.

Lemma calcBoardSpecs_seeds_and_folds_witness :
  exists this' dataFiles',
    calcBoardSpecs LeftToRight fresh_object two_streams = Ok (this', dataFiles') /\
    x this' = -1 /\ y this' = 0 /\ width this' = 3 - -1 /\ height this' = 3 - 0.
Proof.
  apply (calcBoardSpecs_seeds_and_folds LeftToRight fresh_object two_streams
           (mkHeader 0 0 3 2) [mkHeader (-1) 0 2 3]).
  - repeat constructor.
  - repeat constructor;
      unfold Int.in_range, Int.min_int, Int.max_int; simpl; lia.
  - split; unfold Int.in_range, Int.min_int, Int.max_int; simpl; lia.
Defined.

(* ------------------------------------------------------------------ *)
(** ** split *)

Lemma substring_past_end i : forall m s,
  (String.length s <= i)%nat -> String.substring i m s = EmptyString.
Proof.
  induction i as [| i IH]; intros m [| c s] H; simpl in *; try reflexivity;
    try lia.
  - destruct m; reflexivity.
  - apply IH. lia.
Qed.

Lemma substring_nothing i : forall s, String.substring i 0 s = EmptyString.
Proof.
  induction i as [| i IH]; intros [| c s]; simpl; try reflexivity. apply IH.
Qed.

(** [find] returns the position of an occurrence, and the first one. *)
Lemma find_occurrence s d i :
  find s d = Some i ->
  String.substring i (String.length d) s = d /\
  forall j, (j < i)%nat -> String.substring j (String.length d) s <> d.
Proof.
  unfold find. intros H. split.
  - eapply index_correct1; eauto.
  - intros j Hj. eapply index_correct2; eauto. lia.
Qed.

Lemma find_char_in_string s c i :
  find s (String c EmptyString) = Some i -> (i < String.length s)%nat.
Proof.
  intros H. apply find_occurrence in H as [H _]. simpl in H.
  destruct (Nat.lt_ge_cases i (String.length s)) as [Hlt | Hge];
    [exact Hlt |].
  rewrite substring_past_end in H by exact Hge. discriminate.
Qed.

(** With a delimiter of one character and a string a [std::string] can
    hold, [split] returns without exception what the description says. *)
Lemma split_char_described s c firstStr :
  len s < 2 ^ 64 ->
  split s (String c EmptyString) firstStr
    = Ok (split_described s (String c EmptyString) firstStr).
Proof.
  intros Hlen. unfold split, split_described, after_occurrence.
  destruct (find s (String c EmptyString)) as [i |] eqn:E; [| reflexivity].
  apply find_char_in_string in E. unfold len in *. cbn [String.length].
  assert (Hu1 : Int.usub (Z.of_nat (String.length s)) 1
                = Z.of_nat (String.length s) - 1).
  { unfold Int.usub. apply Z.mod_small. lia. }
  assert (Hu2 : Int.usub (Int.usub (Z.of_nat (String.length s)) (Z.of_nat i)) 1
                = Z.of_nat (String.length s) - Z.of_nat i - 1).
  { unfold Int.usub. rewrite (Z.mod_small (_ - Z.of_nat i)) by lia.
    apply Z.mod_small. lia. }
  rewrite Hu1, Hu2. unfold substr, len.
  set (n := String.length s) in *.
  destruct firstStr; cbn [andb].
  - destruct (Z.eqb_spec (Z.of_nat i) 0) as [H0 | H0]; cbn [negb];
      destruct (Nat.eqb_spec i 0) as [Hi | Hi]; try lia.
    + subst i.
      destruct (Z.eqb_spec (Z.of_nat 0) (Z.of_nat n - 1)) as [H1 | H1];
        cbn [negb].
      * replace (n - (0 + 1))%nat with 0%nat by lia.
        now rewrite substring_nothing.
      * destruct (Z.ltb_spec (Z.of_nat n) (Z.of_nat 0 + 1)); [lia |].
        f_equal. f_equal; lia.
    + destruct (Z.ltb_spec (Z.of_nat n) 0); [lia |].
      f_equal. f_equal; lia.
  - destruct (Z.eqb_spec (Z.of_nat i) (Z.of_nat n - 1)) as [H1 | H1];
      cbn [negb]; destruct (Nat.eqb_spec i (n - 1)) as [Hi | Hi]; try lia.
    + reflexivity.
    + destruct (Z.ltb_spec (Z.of_nat n) (Z.of_nat i + 1)); [lia |].
      f_equal. f_equal; lia.
Qed.

(** With no occurrence of the delimiter both variants return the empty
    string, whatever the delimiter. *)
Lemma split_no_occurrence s d firstStr :
  find s d = None -> split s d firstStr = Ok EmptyString.
Proof. unfold split. now intros ->. Qed.

(** C9, for delimiters of one character (as every call in the program
    has): [split] returns the empty string when the delimiter does not
    occur, the text before the first occurrence for the first part unless
    the occurrence is at position 0, when it returns the text after it,
    and the text after the first occurrence for the second part unless the
    occurrence is at the last index, when it returns the empty string. *)
Theorem split_characterised_for_char_delimiter s c firstStr :
  len s < 2 ^ 64 ->
  split s (String c EmptyString) firstStr
    = Ok (split_described s (String c EmptyString) firstStr) /\
  (find s (String c EmptyString) = None ->
   split s (String c EmptyString) firstStr = Ok EmptyString).
Proof.
  intros H. split; [now apply split_char_described |].
  apply split_no_occurrence.
Qed.

Lemma split_characterised_for_char_delimiter_witness :
  split ",5" "," true = Ok (split_described ",5" "," true) /\
  (find ",5" "," = None -> split ",5" "," true = Ok EmptyString).
Proof.
  apply (split_characterised_for_char_delimiter ",5" ","%char true).
  vm_compute. reflexivity.
Defined.

(** C9 as stated fails for a delimiter of two characters: the text after
    the first occurrence of [,,] in [a,,b] is [b], and [split] returns
    [,b]; and for the empty delimiter on the empty string [split] leaves
    by an exception. *)
Lemma split_long_delimiter_counterexample :
  find "a,,b" ",," = Some 1%nat /\
  split_described "a,,b" ",," false = "b" /\
  split "a,,b" ",," false = Ok ",b" /\
  split "a,,b" ",," false <> Ok (split_described "a,,b" ",," false) /\
  split EmptyString EmptyString true = Throw out_of_range.
Proof. repeat split; try (vm_compute; reflexivity). vm_compute. discriminate. Qed.

(* ------------------------------------------------------------------ *)
(** ** Header parser *)

Lemma stoi_not_numeric s : numeric s = false -> stoi s = Throw invalid_argument.
Proof.
  unfold numeric, stoi. intros H.
  destruct (skip_ws s) as [| c r]; [reflexivity |].
  destruct (Ascii.ascii_dec c "-") as [-> | Hm].
  { destruct r as [| c' r']; [reflexivity |]. cbn in H |- *. now rewrite H. }
  destruct (Ascii.ascii_dec c "+") as [-> | Hp].
  { destruct r as [| c' r']; [reflexivity |]. cbn in H |- *. now rewrite H. }
  assert (Hs : (match String c r with
                | String "-"%char r0 => (true, r0)
                | String "+"%char r0 => (false, r0)
                | _ => (false, String c r)
                end) = (false, String c r)).
  { destruct c as [[] [] [] [] [] [] [] []]; try reflexivity; congruence. }
  assert (Hn : (match String c r with
                | String "-"%char r0 => r0
                | String "+"%char r0 => r0
                | _ => String c r
                end) = String c r).
  { destruct c as [[] [] [] [] [] [] [] []]; try reflexivity; congruence. }
  rewrite Hs. rewrite Hn in H. now rewrite H.
Qed.

Lemma stoi_defined s : stoi s <> Undefined.
Proof.
  unfold stoi. destruct (match skip_ws s with
                         | String "-"%char r => (true, r)
                         | String "+"%char r => (false, r)
                         | _ => (false, skip_ws s)
                         end) as [neg t].
  destruct t as [| c r]; [discriminate |].
  destruct (isdigit c); [| discriminate].
  destruct (Int.in_rangeb _); discriminate.
Qed.

Lemma substr_defined s pos n : substr s pos n <> Undefined.
Proof. unfold substr. destruct (_ <? _); discriminate. Qed.

Lemma split_defined s d firstStr : split s d firstStr <> Undefined.
Proof.
  unfold split. destruct (find s d); [| discriminate].
  destruct (_ && _); [apply substr_defined |].
  destruct (negb _); [apply substr_defined | discriminate].
Qed.

Lemma piece_defined s d firstStr :
  (p ← split s d firstStr; stoi p) <> Undefined.
Proof.
  pose proof (split_defined s d firstStr).
  destruct (split s d firstStr) as [p | e |]; simpl;
    [apply stoi_defined | discriminate | congruence].
Qed.

Lemma make_pair_defined {A B} o (a : outcome A) (b : outcome B) :
  a <> Undefined -> b <> Undefined -> make_pair o a b <> Undefined.
Proof. destruct o, a, b; simpl; congruence. Qed.

(** Whatever the evaluation order, a pair with a throwing component and no
    undefined one throws. *)
Lemma make_pair_throws {A B} o (a : outcome A) (b : outcome B) :
  a <> Undefined -> b <> Undefined -> throws a \/ throws b ->
  throws (make_pair o a b).
Proof.
  unfold throws. intros Ha Hb [[e ->] | [e ->]]; destruct o; simpl.
  - eauto.
  - destruct b; simpl; [eauto | eauto | congruence].
  - destruct a; simpl; [eauto | eauto | congruence].
  - eauto.
Qed.

Lemma readPos_unfold o firstLine :
  readPos o firstLine =
  (posStr ← substr (pos_word firstLine) posQualifierLen
               (Int.usub (len (pos_word firstLine)) posQualifierLen);
   make_pair o (s ← split posStr "," true; stoi s)
               (s ← split posStr "," false; stoi s)).
Proof.
  unfold readPos, pos_word, extract_n. cbn [Nat.iter nat_rect fst snd].
  destruct (extract (Some firstLine) EmptyString) as [w1 s1].
  cbn [fst snd].
  destruct (extract s1 w1) as [w2 s2]. reflexivity.
Qed.

Lemma readWidthHeight_unfold o secLine :
  readWidthHeight o secLine =
  make_pair o (s ← split (width_word secLine) "," true; stoi s)
              (s ← split (height_word secLine) "," true; stoi s).
Proof.
  unfold readWidthHeight, width_word, height_word, extract_n.
  cbn [Nat.iter nat_rect fst snd].
  destruct (extract (Some secLine) EmptyString) as [w1 s1]. cbn [fst snd].
  destruct (extract s1 w1) as [w2 s2]. cbn [fst snd].
  destruct (extract s2 w2) as [w3 s3]. cbn [fst snd].
  destruct (extract s3 EmptyString) as [w4 s4]. cbn [fst snd].
  destruct (extract s4 w4) as [w5 s5]. cbn [fst snd].
  destruct (extract s5 w5) as [w6 s6]. reflexivity.
Qed.

Lemma readPos_defined o firstLine : readPos o firstLine <> Undefined.
Proof.
  rewrite readPos_unfold.
  pose proof (substr_defined (pos_word firstLine) posQualifierLen
                (Int.usub (len (pos_word firstLine)) posQualifierLen)).
  destruct (substr _ _ _) as [p | e |]; simpl; [| discriminate | congruence].
  apply make_pair_defined; apply piece_defined.
Qed.

Lemma readWidthHeight_defined o secLine : readWidthHeight o secLine <> Undefined.
Proof.
  rewrite readWidthHeight_unfold. apply make_pair_defined; apply piece_defined.
Qed.

Lemma bad_piece_throws s d firstStr piece :
  split s d firstStr = Ok piece -> numeric piece = false ->
  throws (p ← split s d firstStr; stoi p).
Proof.
  intros -> Hn. simpl. rewrite (stoi_not_numeric _ Hn).
  exists invalid_argument. reflexivity.
Qed.

Lemma bad_pos_line_throws o firstLine :
  bad_pos_line firstLine -> throws (readPos o firstLine).
Proof.
  unfold bad_pos_line. rewrite readPos_unfold.
  intros [Hshort | (posStr & b & piece & Hsub & Hsp & Hn)].
  - unfold substr. destruct (Z.ltb_spec (len (pos_word firstLine)) posQualifierLen);
      [| lia]. exists out_of_range. reflexivity.
  - rewrite Hsub. simpl. apply make_pair_throws; try apply piece_defined.
    destruct b; [left | right]; eapply bad_piece_throws; eauto.
Qed.

Lemma bad_dims_line_throws o secLine :
  bad_dims_line secLine -> throws (readWidthHeight o secLine).
Proof.
  unfold bad_dims_line. rewrite readWidthHeight_unfold.
  intros (piece & Hsp & Hn).
  apply make_pair_throws; try apply piece_defined.
  destruct Hsp as [Hsp | Hsp]; [left | right]; eapply bad_piece_throws; eauto.
Qed.

Lemma calc_step_defined o acc f : calc_step o acc f <> Undefined.
Proof.
  unfold calc_step. destruct (getline f _) as [l1 f1].
  destruct (getline f1 _) as [l2 f2].
  pose proof (readPos_defined o l1). pose proof (readWidthHeight_defined o l2).
  destruct (readPos o l1); simpl; [| discriminate | congruence].
  destruct (readWidthHeight o l2); simpl; [discriminate | discriminate | congruence].
Qed.

Lemma bad_header_no_parse o file :
  bad_header file -> throws (parse_header o (open file)).
Proof.
  unfold bad_header, header_lines, parse_header.
  destruct (getline (open file) _) as [l1 f1].
  destruct (getline f1 _) as [l2 f2]. simpl.
  intros [Hb | Hb].
  - destruct (bad_pos_line_throws o l1 Hb) as [e ->]. exists e. reflexivity.
  - destruct (bad_dims_line_throws o l2 Hb) as [e He].
    pose proof (readPos_defined o l1).
    destruct (readPos o l1); simpl; [| eexists; reflexivity | congruence].
    rewrite He. exists e. reflexivity.
Qed.

Lemma bad_header_calc_step o acc file :
  bad_header file -> throws (calc_step o acc (open file)).
Proof.
  unfold bad_header, header_lines, calc_step.
  destruct (getline (open file) _) as [l1 f1].
  destruct (getline f1 _) as [l2 f2]. simpl.
  intros [Hb | Hb].
  - destruct (bad_pos_line_throws o l1 Hb) as [e ->]. exists e. reflexivity.
  - destruct (bad_dims_line_throws o l2 Hb) as [e He].
    pose proof (readPos_defined o l1).
    destruct (readPos o l1); simpl; [| eexists; reflexivity | congruence].
    rewrite He. exists e. reflexivity.
Qed.

Lemma calc_loop_bad o dataFiles : forall acc file,
  In (open file) dataFiles -> bad_header file ->
  throws (calc_loop o acc dataFiles).
Proof.
  induction dataFiles as [| f rest IH]; intros acc file Hin Hbad;
    [destruct Hin |].
  simpl. pose proof (calc_step_defined o acc f) as Hdef.
  destruct Hin as [-> | Hin].
  - destruct (bad_header_calc_step o acc file Hbad) as [e ->].
    exists e. reflexivity.
  - destruct (calc_step o acc f) as [[acc' f'] | e |]; simpl;
      [| exists e; reflexivity | congruence].
    destruct (IH acc' file Hin Hbad) as [e ->]. exists e. reflexivity.
Qed.

Lemma construct_bad_header o files genNum i :
  0 <= genNum < Int.max_int -> (i <= Z.to_nat genNum)%nat ->
  bad_header (files i) -> throws (construct o files genNum).
Proof.
  intros Hg Hi Hbad. unfold construct, populateIStreamVec.
  destruct (Z.eqb_spec genNum Int.max_int); [lia |]. simpl.
  unfold calcBoardSpecs.
  destruct (calc_loop_bad o
              (map (fun i => open (files i)) (seq 0 (Z.to_nat (genNum + 1))))
              None (files i)) as [e ->].
  - apply in_map_iff. exists i. split; [reflexivity |].
    apply in_seq. lia.
  - exact Hbad.
  - exists e. reflexivity.
Qed.

(** C7, as the program has it: when the file of a requested generation is
    missing, or its first line gives a position word shorter than the four
    characters of the qualifier, or [split] hands [stoi] a piece that is not
    numeric (the empty piece included) on either header line, header
    parsing yields no value at all, in particular no 0, and the constructor
    leaves by a standard exception. *)
Theorem malformed_header_aborts_construction o files genNum i :
  0 <= genNum < Int.max_int -> (i <= Z.to_nat genNum)%nat ->
  bad_header (files i) ->
  throws (parse_header o (open (files i))) /\
  throws (construct o files genNum).
Proof.
  intros Hg Hi Hbad. split.
  - now apply bad_header_no_parse.
  - eapply construct_bad_header; eauto.
Qed.

Lemma no_comma_is_bad_header :
  bad_header (Some (gen_file "3" "3, y = 3" "o!")).
Proof.
  left. right. exists "3", true, EmptyString.
  repeat split; vm_compute; reflexivity.
Qed.

Lemma malformed_header_aborts_construction_witness :
  throws (parse_header LeftToRight
            (open (one_file (gen_file "3" "3, y = 3" "o!") 0%nat))) /\
  throws (construct LeftToRight (one_file (gen_file "3" "3, y = 3" "o!")) 0).
Proof.
  apply (malformed_header_aborts_construction LeftToRight
           (one_file (gen_file "3" "3, y = 3" "o!")) 0 0%nat).
  - unfold Int.max_int. lia.
  - simpl. lia.
  - exact no_comma_is_bad_header.
Defined.

(** C7 as stated fails: a first line with no position token, whose second
    word merely has four characters before [0,0], parses to the position
    (0, 0) without any error, and the constructor accepts the file. *)
Lemma header_without_pos_token_counterexample :
  has_pos_token "#CXRLE Gen=0,0" = false /\
  readPos LeftToRight "#CXRLE Gen=0,0" = Ok (0, 0) /\
  readPos RightToLeft "#CXRLE Gen=0,0" = Ok (0, 0) /\
  construct LeftToRight
    (one_file ("#CXRLE Gen=0,0" ++ String newline EmptyString ++
               "x = 1, y = 1, rule = B3/S23" ++ String newline EmptyString ++
               "o!")%string) 0
    = Ok (mkClassifier 5 0 0 1 1 [true] 1).
Proof. repeat split; vm_compute; reflexivity. Qed.

(* ------------------------------------------------------------------ *)
(** ** Printing *)

(** With a width other than 0 and 1 the remainder [1 % width] is 1, so the
    row test [i - index + 1 == 0] never holds inside the loop. *)
Lemma row_test_never_holds w i index :
  w <> 0 -> w <> 1 -> w <> -1 -> index <= i -> i - index < Int.max_int ->
  exists r, int_rem 1 w = Ok r /\ (Int.add (Int.sub i index) r =? 0) = false.
Proof.
  intros H0 H1 Hm1 Hi Hr. unfold int_rem.
  destruct (Z.eqb_spec w 0); [contradiction |].
  exists 1. split.
  - f_equal. apply Z.rem_small_iff; lia.
  - unfold Int.add, Int.sub.
    rewrite wrap_add_l. rewrite wrap_small.
    + apply Z.eqb_neq. lia.
    + unfold Int.in_range, Int.min_int, Int.max_int in *. lia.
Qed.

Lemma append_snoc_assoc (os : string) c t :
  ((os ++ String c EmptyString) ++ t)%string = (os ++ String c t)%string.
Proof. induction os as [| a os IH]; simpl; [reflexivity | now rewrite IH]. Qed.

Lemma load_cell_char this onChar offChar i b :
  load this i = Ok b ->
  cell_char this onChar offChar i = if b then onChar else offChar.
Proof.
  unfold load, cell_char. destruct (0 <=? i); [| discriminate].
  destruct (gameBoard this !! Z.to_nat i) as [[] |]; intros [= <-]; reflexivity.
Qed.

Lemma cells_from_step this onChar offChar i n :
  cells_from this onChar offChar i (S n)
  = String (cell_char this onChar offChar i)
           (cells_from this onChar offChar (i + 1) n).
Proof.
  unfold cells_from. simpl. rewrite Z.add_0_r. f_equal. f_equal.
  rewrite <- seq_shift, map_map. apply map_ext. intros k. f_equal. lia.
Qed.

(** On a board at least two cells wide the loop writes the cells it visits
    and no newline. *)
Lemma print_loop_flat this index onChar offChar n : forall i os,
  2 <= width this -> 0 <= index <= i ->
  i + Z.of_nat n <= Int.max_int ->
  i + Z.of_nat n <= Z.of_nat (length (gameBoard this)) ->
  print_loop this index onChar offChar n i os
  = Ok (os ++ cells_from this onChar offChar i n)%string.
Proof.
  induction n as [| n IH]; intros i os Hw Hi Hmax Hlen.
  - simpl. unfold cells_from. simpl.
    f_equal. induction os as [| a os IHos]; simpl; [reflexivity | now rewrite <- IHos].
  - cbn [print_loop].
    destruct (load_in_buffer this i) as [b Hb]; [lia |].
    rewrite Hb. cbn [mbind outcome_bind].
    destruct (row_test_never_holds (width this) i index) as (r & Hr & Ht);
      try lia.
    rewrite Hr. cbn [mbind outcome_bind]. rewrite Ht.
    unfold Int.add at 1. rewrite wrap_small
      by (unfold Int.in_range, Int.min_int, Int.max_int in *; lia).
    rewrite IH by lia.
    rewrite cells_from_step, append_snoc_assoc.
    now rewrite (load_cell_char _ onChar offChar _ _ Hb).
Qed.

(** Every generation of an allocated board at least two cells wide is
    printed on a single line. *)
Lemma printGameBoard_single_line this generationCount genNum onChar offChar :
  board_ok this generationCount -> 0 <= genNum < generationCount ->
  2 <= width this ->
  printGameBoard this genNum onChar offChar
  = Ok (flat_text this onChar offChar genNum).
Proof.
  intros Hok Hg Hw. pose proof Hok as [_ Hh _ Hx Hy Hvol Hb].
  assert (Hv : valid_cell this generationCount genNum (x this) (y this)).
  { split; [exact Hg |]. unfold in_envelope. lia. }
  pose proof (flat_index_bounds _ _ _ _ _ Hok Hv) as Hfb.
  assert (Hfi : flat_index this genNum (x this) (y this)
                = genNum * width this * height this)
    by (unfold flat_index; lia).
  assert (Hwh : 0 < width this * height this) by nia.
  assert (Hend : genNum * width this * height this + width this * height this
                 <= generationCount * width this * height this) by nia.
  unfold printGameBoard, flat_text.
  rewrite (get1DIndex_exact _ _ _ _ _ Hok Hv), Hfi.
  unfold Int.mul, Int.add.
  rewrite (wrap_small (width this * height this))
    by (unfold Int.in_range, Int.min_int, Int.max_int in *; nia).
  rewrite wrap_small
    by (unfold Int.in_range, Int.min_int, Int.max_int in *; nia).
  replace (genNum * width this * height this + width this * height this
           - genNum * width this * height this)
    with (width this * height this) by lia.
  rewrite print_loop_flat; try lia.
  reflexivity.
Qed.

(** C8: the 2 by 2 board with the one live cell (0, 0) is printed as the
    four characters in one line and one newline, where two rows of two
    characters and an empty line are described; a board one cell wide gets
    a newline after its first cell only. *)
Theorem printGameBoard_rows_not_broken :
  printGameBoard square_board 0 "1" "0"
    = Ok ("1000" ++ String newline EmptyString)%string /\
  board_text square_board "1" "0" 0
    = ("10" ++ String newline ("00" ++ String newline (String newline EmptyString)))%string /\
  printGameBoard square_board 0 "1" "0" <> Ok (board_text square_board "1" "0" 0) /\
  printGameBoard (mkClassifier 5 0 0 1 3 [true; true; true] 3) 0 "1" "0"
    = Ok ("1" ++ String newline ("11" ++ String newline EmptyString))%string.
Proof.
  repeat split; try (vm_compute; reflexivity). vm_compute. discriminate.
Qed.

(* ================================================================== *)
(** * Further properties of the board store *)

(** Right after [initializeGameBoard] every valid cell of every generation
    reads dead. *)
Theorem initializeGameBoard_all_dead this genNum gen xCoord yCoord :
  0 < width this -> 0 < height this -> 0 <= genNum ->
  Int.in_range (x this) -> Int.in_range (y this) ->
  (genNum + 1) * width this * height this <= Int.max_int ->
  valid_cell this (genNum + 1) gen xCoord yCoord ->
  getCellVal (initializeGameBoard this genNum) gen xCoord yCoord = Ok false.
Proof.
  intros Hw Hh Hg Hx Hy Hvol Hv.
  pose proof (initializeGameBoard_ok this genNum Hw Hh Hg Hx Hy Hvol) as Hok.
  assert (Hv' : valid_cell (initializeGameBoard this genNum) (genNum + 1)
                  gen xCoord yCoord) by exact Hv.
  pose proof (flat_index_bounds _ _ _ _ _ Hok Hv') as Hb.
  pose proof (ok_board _ _ Hok) as Hlen.
  unfold getCellVal. rewrite (get1DIndex_exact _ _ _ _ _ Hok Hv').
  unfold load. destruct (Z.leb_spec 0 (flat_index (initializeGameBoard this genNum)
                                         gen xCoord yCoord)); [| lia].
  simpl gameBoard in *. rewrite length_replicate in Hlen.
  rewrite lookup_replicate_2; [reflexivity | lia].
Qed.

Lemma initializeGameBoard_all_dead_witness :
  getCellVal (initializeGameBoard two_gens_specs 1) 1 2 2 = Ok false.
Proof.
  apply (initializeGameBoard_all_dead two_gens_specs 1 1 2 2);
    unfold Int.in_range, Int.min_int, Int.max_int, valid_cell, in_envelope;
    simpl; lia.
Defined.

(** Writing a valid cell leaves every other valid cell as it was. *)
Theorem setCellVal_leaves_other_cells this generationCount g1 x1 y1 g2 x2 y2 v this' :
  board_ok this generationCount ->
  valid_cell this generationCount g1 x1 y1 ->
  valid_cell this generationCount g2 x2 y2 ->
  (g1, x1, y1) <> (g2, x2, y2) ->
  setCellVal this g1 x1 y1 v = Ok this' ->
  getCellVal this' g2 x2 y2 = getCellVal this g2 x2 y2.
Proof.
  intros Hok H1 H2 Hne Hs. rewrite setCellVal_store in Hs. unfold getCellVal.
  rewrite (same_shape_index _ _ _ _ _ (store_same_shape _ _ _ _ Hs)).
  eapply store_other; [exact Hs | |].
  - rewrite (get1DIndex_exact _ _ _ _ _ Hok H2).
    apply (flat_index_bounds _ _ _ _ _ Hok H2).
  - rewrite (get1DIndex_exact _ _ _ _ _ Hok H1),
            (get1DIndex_exact _ _ _ _ _ Hok H2).
    intros E. destruct (flat_index_inj _ _ _ _ _ _ _ _ Hok H1 H2 E) as (-> & -> & ->).
    now apply Hne.
Qed.

Lemma setCellVal_leaves_other_cells_witness :
  getCellVal (mkClassifier 5 (-1) 0 4 3
                (<[14%nat := true]> (gameBoard small_board)) 24) 0 0 0
  = getCellVal small_board 0 0 0.
Proof.
  apply (setCellVal_leaves_other_cells small_board 2 1 1 0 0 0 0 true).
  - exact small_board_ok.
  - unfold valid_cell, in_envelope. simpl. lia.
  - unfold valid_cell, in_envelope. simpl. lia.
  - discriminate.
  - vm_compute. reflexivity.
Defined.

(** The layout of the flattened board, in [int] arithmetic and for every
    object: one column to the right is the next offset, one row down is
    [width] further, one generation on is [width * height] further. *)
Theorem get1DIndex_layout this gen xCoord yCoord :
  get1DIndex this gen (xCoord + 1) yCoord
    = Int.add (get1DIndex this gen xCoord yCoord) 1 /\
  get1DIndex this gen xCoord (yCoord + 1)
    = Int.add (get1DIndex this gen xCoord yCoord) (width this) /\
  get1DIndex this (gen + 1) xCoord yCoord
    = Int.add (get1DIndex this gen xCoord yCoord)
              (Int.mul (width this) (height this)).
Proof.
  rewrite !get1DIndex_wrap. unfold Int.add, Int.mul, flat_index.
  rewrite wrap_add_r, !wrap_add_l.
  repeat split; f_equal; ring.
Qed.

(** On an allocated board the offset of a valid cell is the exact affine
    formula, and the cells of generation [gen] fill the block of
    [width * height] offsets that starts at [gen * width * height], inside
    the buffer. *)
Theorem get1DIndex_in_generation_block this generationCount gen xCoord yCoord :
  board_ok this generationCount ->
  valid_cell this generationCount gen xCoord yCoord ->
  get1DIndex this gen xCoord yCoord
    = gen * width this * height this
      + (yCoord - y this) * width this + (xCoord - x this) /\
  gen * (width this * height this) <= get1DIndex this gen xCoord yCoord
    < (gen + 1) * (width this * height this) /\
  0 <= get1DIndex this gen xCoord yCoord < Z.of_nat (length (gameBoard this)).
Proof.
  intros Hok Hv. rewrite (get1DIndex_exact _ _ _ _ _ Hok Hv).
  pose proof (flat_index_bounds _ _ _ _ _ Hok Hv) as Hb.
  rewrite (ok_board _ _ Hok).
  split; [reflexivity |]. split; [| exact Hb].
  destruct Hok as [Hw Hh _ _ _ _ _]. destruct Hv as [Hg [Hx Hy]].
  unfold flat_index.
  assert (0 <= (yCoord - y this) * width this) by nia.
  assert ((yCoord - y this) * width this <= (height this - 1) * width this)
    by nia.
  nia.
Qed.

Lemma get1DIndex_in_generation_block_witness :
  get1DIndex small_board 1 2 1
    = 1 * width small_board * height small_board
      + (1 - y small_board) * width small_board + (2 - x small_board) /\
  1 * (width small_board * height small_board) <= get1DIndex small_board 1 2 1
    < (1 + 1) * (width small_board * height small_board) /\
  0 <= get1DIndex small_board 1 2 1 < Z.of_nat (length (gameBoard small_board)).
Proof.
  apply (get1DIndex_in_generation_block small_board 2 1 2 1).
  - exact small_board_ok.
  - unfold valid_cell, in_envelope. simpl. lia.
Defined.

(* ================================================================== *)
(** * Further properties of the run-length filler *)

Lemma decode_ignorable_char genNum startX c rest st :
  ignorable c = true ->
  decode genNum startX (String c rest) st = decode genNum startX rest st.
Proof.
  unfold ignorable. intros H.
  apply andb_prop in H as [H Hd]. apply andb_prop in H as [H Hb].
  apply andb_prop in H as [Hn Ho].
  apply negb_true_iff in Hd, Hb, Ho, Hn.
  cbn [decode]. rewrite Hn. cbn [repeat_tag].
  rewrite apply_tag_other by assumption. reflexivity.
Qed.

(** Characters that are neither digits nor tags (line breaks, blanks, the
    terminator [!], anything else) are passed over: a stretch of them
    before the rest of a body changes nothing, and a body made of them
    alone leaves board and cursor as they are. *)
Theorem decode_passes_over_ignorable genNum startX skipped rest st :
  forallb ignorable (list_ascii_of_string skipped) = true ->
  decode genNum startX (skipped ++ rest) st = decode genNum startX rest st /\
  decode genNum startX skipped st = Ok st.
Proof.
  revert st. induction skipped as [| c skipped IH]; intros st H.
  - split; reflexivity.
  - cbn [list_ascii_of_string forallb] in H. apply andb_prop in H as [Hc Hs].
    destruct (IH st Hs) as [IH1 IH2]. split.
    + cbn [String.append]. rewrite decode_ignorable_char by exact Hc. exact IH1.
    + rewrite decode_ignorable_char by exact Hc. exact IH2.
Qed.

Lemma decode_passes_over_ignorable_witness :
  decode 0 0 ((String newline "! x") ++ "2o") (mkCursor (row_of 3) 0 0)
    = decode 0 0 "2o" (mkCursor (row_of 3) 0 0) /\
  decode 0 0 (String newline "! x") (mkCursor (row_of 3) 0 0)
    = Ok (mkCursor (row_of 3) 0 0).
Proof.
  apply (decode_passes_over_ignorable 0 0 (String newline "! x") "2o").
  vm_compute. reflexivity.
Defined.

Lemma repeat_dead n genNum startX : forall st,
  Int.in_range (currentX st) ->
  Int.in_range (currentX st + Z.of_nat n) ->
  repeat_tag n genNum startX "b" st
  = Ok (mkCursor (object st) (currentX st + Z.of_nat n) (currentY st)).
Proof.
  induction n as [| n IH]; intros [this cx cy] Hx Hn; cbn [currentX currentY object] in *.
  - cbn [repeat_tag]. rewrite Z.add_0_r. reflexivity.
  - cbn [repeat_tag]. unfold apply_tag.
    cbn [Ascii.eqb Bool.eqb orb currentX currentY object mbind outcome_bind].
    unfold Int.add.
    rewrite wrap_small
      by (unfold Int.in_range, Int.min_int, Int.max_int in *; lia).
    rewrite IH; cbn [currentX currentY object];
      [ do 2 f_equal; lia | |];
      unfold Int.in_range, Int.min_int, Int.max_int in *; lia.
Qed.

Lemma repeat_row_end n genNum startX : forall st,
  Int.in_range (currentY st) ->
  Int.in_range (currentY st + Z.of_nat (S n)) ->
  repeat_tag (S n) genNum startX "$" st
  = Ok (mkCursor (object st) startX (currentY st + Z.of_nat (S n))).
Proof.
  induction n as [| n IH]; intros [this cx cy] Hy Hn; cbn [currentX currentY object] in *.
  - cbn [repeat_tag]. unfold apply_tag.
    cbn [Ascii.eqb Bool.eqb orb currentX currentY object mbind outcome_bind].
    unfold Int.add. rewrite wrap_small by exact Hn. reflexivity.
  - change (repeat_tag (S (S n)) genNum startX "$" (mkCursor this cx cy))
      with (st' ← apply_tag genNum startX "$" (mkCursor this cx cy);
            repeat_tag (S n) genNum startX "$" st').
    unfold apply_tag at 1.
    cbn [Ascii.eqb Bool.eqb orb currentX currentY object mbind outcome_bind].
    unfold Int.add.
    rewrite wrap_small
      by (unfold Int.in_range, Int.min_int, Int.max_int in *; lia).
    rewrite IH; cbn [currentX currentY object];
      [ do 2 f_equal; lia | |];
      unfold Int.in_range, Int.min_int, Int.max_int in *; lia.
Qed.

(** A dead run, with or without a count digit, writes nothing and moves
    the cursor right by the count, as long as the column stays an [int]. *)
Theorem decode_dead_run genNum startX d rest st :
  isdigit d = true ->
  Int.in_range (currentX st) ->
  Int.in_range (currentX st + 9) ->
  decode genNum startX (String d (String "b" rest)) st
    = decode genNum startX rest
        (mkCursor (object st) (currentX st + Z.of_nat (digit_count d))
                  (currentY st)) /\
  decode genNum startX (String "b" rest) st
    = decode genNum startX rest
        (mkCursor (object st) (currentX st + 1) (currentY st)).
Proof.
  intros Hd Hx H9. pose proof (isdigit_code d Hd) as Hc.
  assert (Hk : 0 <= Z.of_nat (digit_count d) <= 9)
    by (unfold digit_count; lia).
  split.
  - cbn [decode]. rewrite Hd. fold (digit_count d).
    rewrite repeat_dead;
      [reflexivity | exact Hx |
       unfold Int.in_range, Int.min_int, Int.max_int in *; lia].
  - change (decode genNum startX (String "b" rest) st)
      with (st' ← repeat_tag 1 genNum startX "b" st;
            decode genNum startX rest st').
    rewrite repeat_dead;
      [reflexivity | exact Hx |
       unfold Int.in_range, Int.min_int, Int.max_int in *; lia].
Qed.

Lemma decode_dead_run_witness :
  decode 0 0 "7bo" (mkCursor (row_of 12) 0 0)
    = decode 0 0 "o"
        (mkCursor (row_of 12) (0 + Z.of_nat (digit_count "7")) 0) /\
  decode 0 0 "bo" (mkCursor (row_of 12) 0 0)
    = decode 0 0 "o" (mkCursor (row_of 12) (0 + 1) 0).
Proof.
  apply (decode_dead_run 0 0 "7" "o" (mkCursor (row_of 12) 0 0)).
  - reflexivity.
  - unfold Int.in_range, Int.min_int, Int.max_int. simpl. lia.
  - unfold Int.in_range, Int.min_int, Int.max_int. simpl. lia.
Defined.

(** An end of row puts the cursor back on the starting column and one row
    down; with a count digit other than 0 it goes down by the count. The
    board is not touched. *)
Theorem decode_row_end genNum startX d rest st :
  isdigit d = true -> digit_count d <> 0%nat ->
  Int.in_range (currentY st) ->
  Int.in_range (currentY st + 9) ->
  decode genNum startX (String d (String "$" rest)) st
    = decode genNum startX rest
        (mkCursor (object st) startX
                  (currentY st + Z.of_nat (digit_count d))) /\
  decode genNum startX (String "$" rest) st
    = decode genNum startX rest
        (mkCursor (object st) startX (currentY st + 1)).
Proof.
  intros Hd Hnz Hy H9. pose proof (isdigit_code d Hd) as Hc.
  assert (Hk : 0 <= Z.of_nat (digit_count d) <= 9)
    by (unfold digit_count; lia).
  split.
  - cbn [decode]. rewrite Hd. fold (digit_count d).
    destruct (digit_count d) as [| k] eqn:Ek; [contradiction |].
    rewrite repeat_row_end;
      [reflexivity | exact Hy |
       unfold Int.in_range, Int.min_int, Int.max_int in *; lia].
  - change (decode genNum startX (String "$" rest) st)
      with (st' ← repeat_tag 1 genNum startX "$" st;
            decode genNum startX rest st').
    rewrite repeat_row_end;
      [reflexivity | exact Hy |
       unfold Int.in_range, Int.min_int, Int.max_int in *; lia].
Qed.

Lemma decode_row_end_witness :
  decode 0 5 "3$o" (mkCursor small_board 7 0)
    = decode 0 5 "o"
        (mkCursor small_board 5 (0 + Z.of_nat (digit_count "3"))) /\
  decode 0 5 "$o" (mkCursor small_board 7 0)
    = decode 0 5 "o" (mkCursor small_board 5 (0 + 1)).
Proof.
  apply (decode_row_end 0 5 "3" "o" (mkCursor small_board 7 0)).
  - reflexivity.
  - vm_compute. discriminate.
  - unfold Int.in_range, Int.min_int, Int.max_int. simpl. lia.
  - unfold Int.in_range, Int.min_int, Int.max_int. simpl. lia.
Defined.

(** What a write to a valid cell does, in one place. *)
Lemma setCellVal_valid this G gen xCoord yCoord v :
  board_ok this G -> valid_cell this G gen xCoord yCoord ->
  exists this',
    setCellVal this gen xCoord yCoord v = Ok this' /\
    same_shape this this' /\
    getCellVal this' gen xCoord yCoord = Ok v /\
    forall g2 x2 y2,
      valid_cell this G g2 x2 y2 -> (g2, x2, y2) <> (gen, xCoord, yCoord) ->
      getCellVal this' g2 x2 y2 = getCellVal this g2 x2 y2.
Proof.
  intros Hok Hv.
  pose proof (flat_index_bounds _ _ _ _ _ Hok Hv) as Hb.
  pose proof (get1DIndex_exact _ _ _ _ _ Hok Hv) as Hi.
  destruct (store_in_buffer this (get1DIndex this gen xCoord yCoord) v)
    as [this' Hs].
  { rewrite Hi, (ok_board _ _ Hok). exact Hb. }
  pose proof (store_same_shape _ _ _ _ Hs) as Hsh.
  exists this'. rewrite setCellVal_store.
  split; [exact Hs |]. split; [exact Hsh |]. split.
  - unfold getCellVal. rewrite (same_shape_index _ _ _ _ _ Hsh).
    eapply load_store; exact Hs.
  - intros g2 x2 y2 H2 Hne. unfold getCellVal.
    rewrite (same_shape_index _ _ _ _ _ Hsh).
    eapply store_other; [exact Hs | |].
    + rewrite (get1DIndex_exact _ _ _ _ _ Hok H2).
      apply (flat_index_bounds _ _ _ _ _ Hok H2).
    + rewrite Hi, (get1DIndex_exact _ _ _ _ _ Hok H2). intros E.
      destruct (flat_index_inj _ _ _ _ _ _ _ _ Hok Hv H2 E) as (-> & -> & ->).
      now apply Hne.
Qed.

Lemma in_run_zero g cx cy gen xCoord yCoord :
  in_run g cx cy 0 gen xCoord yCoord = false.
Proof.
  unfold in_run. destruct (gen =? g), (yCoord =? cy); cbn [andb]; try reflexivity.
  destruct (Z.leb_spec cx xCoord); cbn [andb]; [| reflexivity].
  apply Z.ltb_ge. lia.
Qed.

Lemma in_run_succ g cx cy n gen xCoord yCoord :
  in_run g cx cy (S n) gen xCoord yCoord
  = ((gen =? g) && (yCoord =? cy) && (xCoord =? cx))
    || in_run g (cx + 1) cy n gen xCoord yCoord.
Proof.
  unfold in_run.
  destruct (Z.eqb_spec gen g), (Z.eqb_spec yCoord cy); cbn [andb orb];
    try reflexivity.
  destruct (Z.eqb_spec xCoord cx), (Z.leb_spec cx xCoord),
    (Z.leb_spec (cx + 1) xCoord),
    (Z.ltb_spec xCoord (cx + Z.of_nat (S n))),
    (Z.ltb_spec xCoord (cx + 1 + Z.of_nat n)); cbn [andb orb];
    try reflexivity; lia.
Qed.

(** [n] repetitions of the tag [o] from a cursor inside the envelope, with
    room for the run in its row. *)
Lemma repeat_live n genNum startX G : forall st,
  board_ok (object st) G -> 0 <= genNum < G ->
  Int.in_range (x (object st) + width (object st)) ->
  y (object st) <= currentY st < y (object st) + height (object st) ->
  x (object st) <= currentX st ->
  currentX st + Z.of_nat n <= x (object st) + width (object st) ->
  exists this',
    repeat_tag n genNum startX "o" st
      = Ok (mkCursor this' (currentX st + Z.of_nat n) (currentY st)) /\
    same_shape (object st) this' /\
    forall gen xCoord yCoord,
      valid_cell (object st) G gen xCoord yCoord ->
      getCellVal this' gen xCoord yCoord
      = if in_run genNum (currentX st) (currentY st) n gen xCoord yCoord
        then Ok true else getCellVal (object st) gen xCoord yCoord.
Proof.
  induction n as [| n IH]; intros [this cx cy];
    cbn [currentX currentY object]; intros Hok Hg Hxw Hy Hx Hn.
  - exists this. cbn [repeat_tag]. rewrite Z.add_0_r.
    split; [reflexivity |]. split; [apply same_shape_refl |].
    intros gen xc yc _. now rewrite in_run_zero.
  - assert (Hv : valid_cell this G genNum cx cy).
    { split; [exact Hg |]. unfold in_envelope. lia. }
    destruct (setCellVal_valid this G genNum cx cy true Hok Hv)
      as (this1 & Hset & Hsh1 & Hget & Hother).
    pose proof Hsh1 as (_ & Hx1 & Hy1 & Hw1 & Hh1 & _).
    pose proof (ok_x _ _ Hok) as Hxr.
    destruct (IH (mkCursor this1 (cx + 1) cy)) as (this' & Hrep & Hsh & Hcells);
      cbn [currentX currentY object]; rewrite ?Hx1, ?Hy1, ?Hw1, ?Hh1;
      try assumption; try lia.
    { eapply same_shape_ok; eauto. }
    cbn [currentX currentY object] in Hrep, Hcells.
    exists this'. split; [| split].
    + cbn [repeat_tag]. unfold apply_tag.
      cbn [Ascii.eqb Bool.eqb orb currentX currentY object].
      rewrite Hset. cbn [mbind outcome_bind].
      unfold Int.add. rewrite wrap_small
        by (unfold Int.in_range, Int.min_int, Int.max_int in *; lia).
      rewrite Hrep. do 2 f_equal. lia.
    + eapply same_shape_trans; eauto.
    + intros gen xc yc Hc. rewrite in_run_succ.
      rewrite (Hcells gen xc yc (same_shape_valid _ _ _ _ _ _ Hsh1 Hc)).
      destruct (in_run genNum (cx + 1) cy n gen xc yc) eqn:Er;
        [now rewrite orb_true_r |]. rewrite orb_false_r.
      destruct (Z.eqb_spec gen genNum) as [-> | Hne1]; cbn [andb].
      * destruct (Z.eqb_spec yc cy) as [-> | Hne2]; cbn [andb].
        -- destruct (Z.eqb_spec xc cx) as [-> | Hne3]; [exact Hget |].
           apply Hother; [exact Hc | congruence].
        -- apply Hother; [exact Hc | congruence].
      * apply Hother; [exact Hc | congruence].
Qed.

(** A live run of a single count digit (or a lone [o]) that fits in its
    row sets exactly the cells of the run, leaves every other cell of the
    board as it was, and moves the cursor right by the count. *)
Theorem decode_live_run genNum startX generationCount d rest st :
  isdigit d = true ->
  board_ok (object st) generationCount -> 0 <= genNum < generationCount ->
  Int.in_range (x (object st) + width (object st)) ->
  y (object st) <= currentY st < y (object st) + height (object st) ->
  x (object st) <= currentX st ->
  currentX st + Z.of_nat (digit_count d) <= x (object st) + width (object st) ->
  exists this',
    decode genNum startX (String d (String "o" rest)) st
      = decode genNum startX rest
          (mkCursor this' (currentX st + Z.of_nat (digit_count d))
                    (currentY st)) /\
    same_shape (object st) this' /\
    forall gen xCoord yCoord,
      valid_cell (object st) generationCount gen xCoord yCoord ->
      getCellVal this' gen xCoord yCoord
      = if in_run genNum (currentX st) (currentY st) (digit_count d)
                  gen xCoord yCoord
        then Ok true else getCellVal (object st) gen xCoord yCoord.
Proof.
  intros Hd Hok Hg Hxw Hy Hx Hn.
  destruct (repeat_live (digit_count d) genNum startX generationCount st
              Hok Hg Hxw Hy Hx Hn) as (this' & Hrep & Hsh & Hcells).
  exists this'. split; [| split; assumption].
  cbn [decode]. rewrite Hd. fold (digit_count d). rewrite Hrep. reflexivity.
Qed.

Lemma decode_live_run_witness :
  exists this',
    decode 1 (-1) "3o$" (mkCursor small_board 0 1)
      = decode 1 (-1) "$"
          (mkCursor this' (0 + Z.of_nat (digit_count "3")) 1) /\
    same_shape small_board this' /\
    forall gen xCoord yCoord,
      valid_cell small_board 2 gen xCoord yCoord ->
      getCellVal this' gen xCoord yCoord
      = if in_run 1 0 1 (digit_count "3") gen xCoord yCoord
        then Ok true else getCellVal small_board gen xCoord yCoord.
Proof.
  apply (decode_live_run 1 (-1) 2 "3" "$" (mkCursor small_board 0 1)).
  - reflexivity.
  - exact small_board_ok.
  - lia.
  - unfold Int.in_range, Int.min_int, Int.max_int. simpl. lia.
  - simpl. lia.
  - simpl. lia.
  - apply Z.leb_le. vm_compute. reflexivity.
Defined.

Lemma grows_refl a : grows a a.
Proof. split; [apply same_shape_refl | auto]. Qed.

Lemma grows_trans a b c : grows a b -> grows b c -> grows a c.
Proof.
  intros [S1 M1] [S2 M2]. split; [eapply same_shape_trans; eauto | auto].
Qed.

Lemma store_true_grows this i this' :
  store this i true = Ok this' -> grows this this'.
Proof.
  intros Hs. split; [eapply store_same_shape; exact Hs |].
  unfold store in Hs. destruct (_ && _); [| discriminate].
  injection Hs as <-. cbn [gameBoard]. intros j Hj.
  destruct (decide (Z.to_nat i = j)) as [-> | Hne].
  - apply list_lookup_insert_eq. eapply lookup_lt_Some; exact Hj.
  - rewrite list_lookup_insert_ne by exact Hne. exact Hj.
Qed.

Lemma apply_tag_grows genNum startX c st st' :
  apply_tag genNum startX c st = Ok st' -> grows (object st) (object st').
Proof.
  unfold apply_tag. destruct (_ || _).
  - destruct (Ascii.eqb c "o"); intros H.
    + bind_inv H. injection H as <-. cbn [object].
      rewrite setCellVal_store in E. eapply store_true_grows; exact E.
    + cbn [mbind outcome_bind] in H. injection H as <-. apply grows_refl.
  - destruct (Ascii.eqb c "$"); intros H; injection H as <-; apply grows_refl.
Qed.

Lemma repeat_tag_grows n genNum startX c : forall st st',
  repeat_tag n genNum startX c st = Ok st' -> grows (object st) (object st').
Proof.
  induction n as [| n IH]; cbn [repeat_tag]; intros st st' H.
  - injection H as <-. apply grows_refl.
  - bind_inv H. eapply grows_trans; [eapply apply_tag_grows; eauto | eauto].
Qed.

Lemma decode_grows genNum startX body : forall st st',
  decode genNum startX body st = Ok st' -> grows (object st) (object st').
Proof.
  remember (String.length body) as n eqn:Hn.
  revert body Hn. induction n as [n IH] using lt_wf_ind.
  intros [| c rest] Hn st st' H; cbn [decode] in H.
  - injection H as <-. apply grows_refl.
  - destruct (isdigit c).
    + destruct rest as [| c' rest'].
      * eapply repeat_tag_grows; eauto.
      * bind_inv H. apply repeat_tag_grows in E.
        eapply grows_trans; [exact E |].
        eapply (IH (String.length rest')); [| reflexivity | exact H].
        subst n. cbn [String.length]. lia.
    + bind_inv H. apply repeat_tag_grows in E.
      eapply grows_trans; [exact E |].
      eapply (IH (String.length rest)); [| reflexivity | exact H].
      subst n. cbn [String.length]. lia.
Qed.

Lemma fill_step_grows o this genNum f this' :
  fill_step o this genNum f = Ok this' -> grows this this'.
Proof.
  unfold fill_step. destruct (getline f _) as [l1 f1].
  destruct (getline f1 _) as [l2 f2]. intros H.
  bind_inv H. bind_inv H. injection H as <-.
  apply decode_grows in E0. exact E0.
Qed.

Lemma fill_loop_grows o dataFiles : forall this genNum this',
  fill_loop o this genNum dataFiles = Ok this' -> grows this this'.
Proof.
  induction dataFiles as [| f rest IH]; cbn [fill_loop]; intros this genNum this' H.
  - injection H as <-. apply grows_refl.
  - bind_inv H. eapply grows_trans; [eapply fill_step_grows; eauto | eauto].
Qed.

(** [fillBoard] only ever sets cells alive: when it returns, the object has
    the origin, dimensions, class number and buffer size it had, and every
    cell that was alive is still alive. *)
Theorem fillBoard_only_sets_cells o this dataFiles this' :
  fillBoard o this dataFiles = Ok this' ->
  getCoords this' = getCoords this /\
  getDimensions this' = getDimensions this /\
  classNum this' = classNum this /\
  boardSize this' = boardSize this /\
  length (gameBoard this') = length (gameBoard this) /\
  forall i : nat,
    gameBoard this !! i = Some true -> gameBoard this' !! i = Some true.
Proof.
  intros H. apply fill_loop_grows in H.
  destruct H as [(Hc & Hx & Hy & Hw & Hh & Hb & Hl) Hm].
  unfold getCoords, getDimensions. rewrite Hx, Hy, Hw, Hh.
  repeat split; assumption.
Qed.

Lemma fillBoard_only_sets_cells_witness :
  getCoords (mkClassifier 5 (-1) 0 4 3
               [false; true; true; true;  false; false; true; false;
                false; false; false; false;
                true; true; false; false;  false; false; false; false;
                true; false; false; false] 24)
    = getCoords small_board /\
  getDimensions (mkClassifier 5 (-1) 0 4 3
               [false; true; true; true;  false; false; true; false;
                false; false; false; false;
                true; true; false; false;  false; false; false; false;
                true; false; false; false] 24)
    = getDimensions small_board /\
  classNum (mkClassifier 5 (-1) 0 4 3
               [false; true; true; true;  false; false; true; false;
                false; false; false; false;
                true; true; false; false;  false; false; false; false;
                true; false; false; false] 24)
    = classNum small_board /\
  boardSize (mkClassifier 5 (-1) 0 4 3
               [false; true; true; true;  false; false; true; false;
                false; false; false; false;
                true; true; false; false;  false; false; false; false;
                true; false; false; false] 24)
    = boardSize small_board /\
  length (gameBoard (mkClassifier 5 (-1) 0 4 3
               [false; true; true; true;  false; false; true; false;
                false; false; false; false;
                true; true; false; false;  false; false; false; false;
                true; false; false; false] 24))
    = length (gameBoard small_board) /\
  forall i : nat,
    gameBoard small_board !! i = Some true ->
    gameBoard (mkClassifier 5 (-1) 0 4 3
               [false; true; true; true;  false; false; true; false;
                false; false; false; false;
                true; true; false; false;  false; false; false; false;
                true; false; false; false] 24) !! i = Some true.
Proof.
  apply (fillBoard_only_sets_cells LeftToRight small_board two_streams).
  vm_compute. reflexivity.
Defined.

(** What the constructor returns has the geometry [calcBoardSpecs] computed
    from the streams of generations 0..genNum, a [boardSize] of
    (genNum + 1) * width * height in [int] arithmetic, and a buffer of
    that many cells (none when the product is not positive). *)
Theorem construct_shape o files genNum this :
  construct o files genNum = Ok this ->
  boardSize this
    = Int.mul (Int.mul (Int.add genNum 1) (width this)) (height this) /\
  length (gameBoard this) = Z.to_nat (boardSize this) /\
  exists streams specs streams',
    populateIStreamVec files genNum = Ok streams /\
    calcBoardSpecs o fresh_object streams = Ok (specs, streams') /\
    getCoords this = getCoords specs /\
    getDimensions this = getDimensions specs.
Proof.
  intros H. unfold construct in H. bind_inv H. bind_inv H.
  destruct a0 as [specs streams']. unfold fillBoard in H.
  apply fill_loop_grows in H.
  destruct H as [(Hc & Hx & Hy & Hw & Hh & Hb & Hl) _].
  cbn [initializeGameBoard classNum x y width height boardSize gameBoard]
    in Hc, Hx, Hy, Hw, Hh, Hb, Hl.
  rewrite Hb, Hl, Hw, Hh, length_replicate.
  split; [reflexivity |]. split; [reflexivity |].
  exists a, specs, streams'. split; [reflexivity |]. split; [exact E0 |].
  unfold getCoords, getDimensions. now rewrite Hx, Hy, Hw, Hh.
Qed.

Lemma construct_shape_witness :
  boardSize (mkClassifier 5 (-1) 0 4 3
               [false; true; true; true;  false; false; true; false;
                false; false; false; false;
                true; true; false; false;  false; false; false; false;
                true; false; false; false] 24)
    = Int.mul (Int.mul (Int.add 1 1) 4) 3 /\
  length [false; true; true; true;  false; false; true; false;
          false; false; false; false;
          true; true; false; false;  false; false; false; false;
          true; false; false; false] = Z.to_nat 24 /\
  exists streams specs streams',
    populateIStreamVec two_gens 1 = Ok streams /\
    calcBoardSpecs LeftToRight fresh_object streams = Ok (specs, streams') /\
    (-1, 0) = getCoords specs /\
    (4, 3) = getDimensions specs.
Proof.
  apply (construct_shape LeftToRight two_gens 1
           (mkClassifier 5 (-1) 0 4 3
               [false; true; true; true;  false; false; true; false;
                false; false; false; false;
                true; true; false; false;  false; false; false; false;
                true; false; false; false] 24)).
  vm_compute. reflexivity.
Defined.

(* ================================================================== *)
(** * Further properties of the constructor and the header pass *)

(** A negative generation count opens no stream at all, and the constructor
    then reads the four extremes of [calcBoardSpecs] uninitialised. *)
Theorem construct_negative_count_undefined o files genNum :
  genNum < 0 -> construct o files genNum = Undefined.
Proof.
  intros Hg. unfold construct, populateIStreamVec.
  destruct (Z.eqb_spec genNum Int.max_int) as [E | _];
    [unfold Int.max_int in E; lia |].
  replace (Z.to_nat (genNum + 1)) with 0%nat by lia. reflexivity.
Qed.

Lemma construct_negative_count_undefined_witness :
  construct LeftToRight two_gens (-1) = Undefined.
Proof. apply (construct_negative_count_undefined LeftToRight two_gens (-1)). lia. Defined.

(** The constructor looks at the files of generations 0..genNum and at no
    other: two directories that agree on them give the same result. *)
Theorem construct_reads_requested_files_only o files files' genNum :
  (forall i : nat, (i <= Z.to_nat genNum)%nat -> files i = files' i) ->
  construct o files genNum = construct o files' genNum.
Proof.
  intros Hagree. unfold construct, populateIStreamVec.
  destruct (genNum =? Int.max_int); [reflexivity |].
  replace (map (fun i => open (files i)) (seq 0 (Z.to_nat (genNum + 1))))
    with (map (fun i => open (files' i)) (seq 0 (Z.to_nat (genNum + 1))));
    [reflexivity |].
  apply map_ext_in. intros i Hi. apply in_seq in Hi.
  rewrite Hagree; [reflexivity | lia].
Qed.

Lemma construct_reads_requested_files_only_witness :
  construct LeftToRight two_gens 0
  = construct LeftToRight (one_file (gen_file "0,0" "3, y = 2" "3o$bob!")) 0.
Proof.
  apply (construct_reads_requested_files_only LeftToRight two_gens
           (one_file (gen_file "0,0" "3, y = 2" "3o$bob!")) 0).
  intros i Hi. assert (i = 0%nat) as -> by (simpl in Hi; lia). reflexivity.
Defined.

Lemma join_box_keeps b h h' :
  frame_inside b h' -> frame_inside (join_box b h) h'.
Proof. unfold frame_inside, join_box. cbn [minX maxX minY maxY]. lia. Qed.

Lemma join_box_covers b h :
  frame_inside (join_box b h) h.
Proof. unfold frame_inside, join_box. cbn [minX maxX minY maxY]. lia. Qed.

Lemma fold_boxes_inside rest : forall acc h',
  frame_inside acc h' \/ In h' rest ->
  frame_inside (fold_left join_box rest acc) h'.
Proof.
  induction rest as [| h rest IH]; intros acc h' [Hacc | Hin]; cbn [fold_left].
  - exact Hacc.
  - destruct Hin.
  - apply IH. left. now apply join_box_keeps.
  - destruct Hin as [-> | Hin]; apply IH.
    + left. apply join_box_covers.
    + right. exact Hin.
Qed.

(** The envelope [calcBoardSpecs] computes contains the frame of every
    generation: each frame starts at or after the origin and ends at or
    before origin + extent, in both directions. *)
Theorem calcBoardSpecs_envelope_contains_frames o this dataFiles h hs :
  Forall2 (fun f h' => parse_header o f = Ok h') dataFiles (h :: hs) ->
  Forall frame_fits (h :: hs) ->
  box_fits (fold_boxes h hs) ->
  exists this' dataFiles',
    calcBoardSpecs o this dataFiles = Ok (this', dataFiles') /\
    forall h', In h' (h :: hs) ->
      x this' <= posX h' /\ posX h' + frameW h' <= x this' + width this' /\
      y this' <= posY h' /\ posY h' + frameH h' <= y this' + height this'.
Proof.
  intros HP HF [Hw Hh].
  destruct (calc_loop_parsed o dataFiles (h :: hs) None HP HF) as [fs' Hl].
  unfold calcBoardSpecs. rewrite Hl. cbn [mbind outcome_bind].
  eexists. eexists. split; [reflexivity |].
  cbn [x y width height]. unfold Int.sub.
  unfold fold_boxes in Hw, Hh. rewrite !wrap_small by assumption.
  intros h' Hin.
  assert (Hi : frame_inside (fold_left join_box hs (frame_box h)) h').
  { apply fold_boxes_inside. destruct Hin as [<- | Hin]; [left | right; exact Hin].
    unfold frame_inside, frame_box. cbn [minX maxX minY maxY]. lia. }
  unfold frame_inside in Hi. lia.
Qed.

Lemma calcBoardSpecs_envelope_contains_frames_witness :
  exists this' dataFiles',
    calcBoardSpecs LeftToRight fresh_object two_streams = Ok (this', dataFiles') /\
    forall h', In h' [mkHeader 0 0 3 2; mkHeader (-1) 0 2 3] ->
      x this' <= posX h' /\ posX h' + frameW h' <= x this' + width this' /\
      y this' <= posY h' /\ posY h' + frameH h' <= y this' + height this'.
Proof.
  apply (calcBoardSpecs_envelope_contains_frames LeftToRight fresh_object
           two_streams (mkHeader 0 0 3 2) [mkHeader (-1) 0 2 3]).
  - repeat constructor.
  - repeat constructor;
      unfold Int.in_range, Int.min_int, Int.max_int; simpl; lia.
  - split; unfold Int.in_range, Int.min_int, Int.max_int; simpl; lia.
Defined.

Lemma getline_contents f old : contents (snd (getline f old)) = contents f.
Proof.
  unfold getline. destruct (stream_good f); [| reflexivity].
  destruct (unread f); [reflexivity |].
  destruct (break_line _) as [[l r] nl]. reflexivity.
Qed.

Lemma getline_failed f :
  failbit (snd (getline f EmptyString)) = true ->
  fst (getline f EmptyString) = EmptyString.
Proof.
  unfold getline. destruct (stream_good f); [| reflexivity].
  destruct (unread f); [reflexivity |].
  destruct (break_line _) as [[l r] nl]. cbn [snd failbit]. discriminate.
Qed.

Lemma readPos_empty_line o : readPos o EmptyString = Throw out_of_range.
Proof. destruct o; reflexivity. Qed.

Lemma readWidthHeight_empty_line o :
  readWidthHeight o EmptyString = Throw invalid_argument.
Proof. destruct o; reflexivity. Qed.

Lemma calc_step_rewinds o acc f acc' f' :
  calc_step o acc f = Ok (acc', f') -> f' = rewound f.
Proof.
  unfold calc_step.
  pose proof (getline_contents f EmptyString) as Hc1.
  pose proof (getline_failed f) as Hf1.
  destruct (getline f EmptyString) as [l1 f1]. cbn [fst snd] in Hc1, Hf1.
  pose proof (getline_contents f1 EmptyString) as Hc2.
  pose proof (getline_failed f1) as Hf2.
  destruct (getline f1 EmptyString) as [l2 f2]. cbn [fst snd] in Hc2, Hf2.
  intros H. bind_inv H. bind_inv H. injection H as _ <-.
  unfold seekg0, rewound. destruct (failbit f2) eqn:Ef.
  - rewrite (Hf2 eq_refl), readWidthHeight_empty_line in E0. discriminate.
  - congruence.
Qed.

Lemma calc_loop_rewinds o dataFiles : forall acc acc' dataFiles',
  calc_loop o acc dataFiles = Ok (acc', dataFiles') ->
  dataFiles' = map rewound dataFiles.
Proof.
  induction dataFiles as [| f rest IH]; cbn [calc_loop]; intros acc acc' fs' H.
  - now injection H as _ <-.
  - bind_inv H. destruct a as [acc1 f1]. bind_inv H. destruct a as [acc2 rest'].
    injection H as _ <-. cbn [map]. f_equal.
    + eapply calc_step_rewinds; eauto.
    + eapply IH; eauto.
Qed.

(** When [calcBoardSpecs] returns, every stream it was given is handed on
    rewound: the whole text unread again and neither state bit set, so
    the filling pass sees each file from its first character. *)
Theorem calcBoardSpecs_rewinds_streams o this dataFiles this' dataFiles' :
  calcBoardSpecs o this dataFiles = Ok (this', dataFiles') ->
  dataFiles' = map rewound dataFiles.
Proof.
  unfold calcBoardSpecs. intros H. bind_inv H. destruct a as [acc fs].
  destruct acc as [b |]; [| discriminate]. injection H as _ <-.
  eapply calc_loop_rewinds; eauto.
Qed.

Lemma calcBoardSpecs_rewinds_streams_witness :
  map rewound two_streams = map rewound two_streams.
Proof.
  apply (calcBoardSpecs_rewinds_streams LeftToRight fresh_object two_streams
           (mkClassifier 5 (-1) 0 4 3 [] 0) (map rewound two_streams)).
  vm_compute. reflexivity.
Defined.

(* ================================================================== *)
(** * Further properties of split, classification and printing *)

Lemma substring_whole s : String.substring 0 (String.length s) s = s.
Proof. induction s as [| c s IH]; cbn; [reflexivity | now rewrite IH]. Qed.

Lemma substring_cut i : forall s c,
  String.substring i 1 s = String c EmptyString ->
  s = (String.substring 0 i s
       ++ String c (String.substring (S i) (String.length s - S i) s))%string.
Proof.
  induction i as [| i IH]; intros [| a s] c H; cbn in H; try discriminate.
  - injection H as -> _. cbn. now rewrite Nat.sub_0_r, substring_whole.
  - cbn [String.substring String.append String.length]. f_equal.
    replace (S (String.length s) - S (S i))%nat
      with (String.length s - S i)%nat by lia.
    now apply IH.
Qed.

(** Around a delimiter of one character that is not the first character,
    the two parts [split] returns put the string together again. *)
Theorem split_parts_rebuild_string s c i :
  len s < 2 ^ 64 ->
  find s (String c EmptyString) = Some i -> i <> 0%nat ->
  exists before after,
    split s (String c EmptyString) true = Ok before /\
    split s (String c EmptyString) false = Ok after /\
    s = (before ++ String c after)%string.
Proof.
  intros Hlen Hf Hi.
  rewrite !split_char_described by exact Hlen.
  unfold split_described, after_occurrence. rewrite Hf.
  pose proof (find_char_in_string _ _ _ Hf) as Hlt.
  apply find_occurrence in Hf as [Hocc _]. cbn [String.length] in Hocc.
  destruct (Nat.eqb_spec i 0); [contradiction |].
  eexists. eexists. split; [reflexivity |]. split; [reflexivity |].
  destruct (Nat.eqb_spec i (String.length s - 1)) as [E | E].
  - pose proof (substring_cut i s c Hocc) as Hcut.
    replace (String.length s - S i)%nat with 0%nat in Hcut by lia.
    rewrite substring_nothing in Hcut. exact Hcut.
  - cbn [String.length]. replace (i + 1)%nat with (S i) by lia.
    exact (substring_cut i s c Hocc).
Qed.

Lemma split_parts_rebuild_string_witness :
  exists before after,
    split "-10,-5" "," true = Ok before /\
    split "-10,-5" "," false = Ok after /\
    "-10,-5" = (before ++ String ","%char after)%string.
Proof.
  apply (split_parts_rebuild_string "-10,-5" ","%char 3).
  - vm_compute. reflexivity.
  - reflexivity.
  - discriminate.
Defined.

Lemma classification_of_constructed_witness :
  classification (mkClassifier 5 0 0 3 1 [true; false; true] 3) = 5 /\
  classification (mkClassifier 5 0 0 3 1 [true; false; true] 3) <> Extinct /\
  classification (mkClassifier 5 0 0 3 1 [true; false; true] 3) <> Periodic /\
  classification (mkClassifier 5 0 0 3 1 [true; false; true] 3) <> Unresolved.
Proof.
  apply (classification_of_constructed LeftToRight
           (one_file (gen_file "0,0" "3, y = 1" "o!bo")) 0).
  vm_compute. reflexivity.
Defined.

Lemma printGameBoard_single_line_witness :
  printGameBoard small_board 1 "1" "0" = Ok (flat_text small_board "1" "0" 1).
Proof.
  apply (printGameBoard_single_line small_board 2 1 "1" "0").
  - exact small_board_ok.
  - lia.
  - simpl. lia.
Defined.

Lemma decode_two_digits_witness :
  decode 0 0 "12o" (mkCursor (row_of 12) 0 0)
  = decode 0 0 "o" (mkCursor (row_of 12) 0 0).
Proof.
  apply (decode_two_digits 0 0 "1" "2" "o" (mkCursor (row_of 12) 0 0));
    reflexivity.
Defined.

(** A digit that is the last character of a body: the read of its tag
    fails and leaves the digit in place, so the digit is repeated as a tag
    and nothing happens. *)
Theorem decode_trailing_digit genNum startX d st :
  isdigit d = true ->
  decode genNum startX (String d EmptyString) st = Ok st.
Proof.
  intros Hd. cbn [decode]. rewrite Hd.
  destruct (digit_is_no_tag d Hd) as (Ho & Hb & Hs).
  now apply repeat_tag_other.
Qed.

Lemma decode_trailing_digit_witness :
  decode 0 0 "7" (mkCursor (row_of 12) 0 0) = Ok (mkCursor (row_of 12) 0 0).
Proof. apply (decode_trailing_digit 0 0 "7" (mkCursor (row_of 12) 0 0)). reflexivity. Defined.
